(** * trading_bot.py: the signal engine of the CoinEx signal bot

    A shallow embedding of [check_signals] and
    [calculate_technical_indicators] of [src/trading_bot.py], and the
    properties of the specification that concern them.

    Numbers are IEEE binary64 values, as in Python and numpy: the kernel's
    primitive floats.  A value read from a data frame, or put in the tuple a
    function returns, is a [cell]: Python's [None] or a float (NaN
    included). *)

From Stdlib Require Import List Bool Arith Lia ZArith Floats.
From Stdlib Require String.
Import ListNotations.
Import String.StringSyntax.
Local Delimit Scope string_scope with string.

(** ** Python values and comparisons *)

Module Py.

(** [None] is Python's [None]; [Some f] a float64, which may be NaN. *)
Abbreviation cell := (option float).

(** [pd.isna]: true of [None] and of NaN. *)
Definition isna (c : cell) : bool :=
  match c with
  | None => true
  | Some f => is_nan f
  end.

(** The outcome of an expression: a value, or an exception raised. *)
Inductive exc (A : Type) : Type :=
| Ok (a : A)
| Raise.
Arguments Ok {A} a.
Arguments Raise {A}.

Definition bind {A B : Type} (m : exc A) (k : A -> exc B) : exc B :=
  match m with
  | Ok a => k a
  | Raise => Raise
  end.

(** Ordering between two cells.  Comparing [None] with a number is a
    [TypeError]; on floats the comparison is IEEE's (false on NaN). *)
Definition lt (a b : cell) : exc bool :=
  match a, b with
  | Some x, Some y => Ok (x <? y)%float
  | _, _ => Raise
  end.

Definition le (a b : cell) : exc bool :=
  match a, b with
  | Some x, Some y => Ok (x <=? y)%float
  | _, _ => Raise
  end.

Definition gt (a b : cell) : exc bool := lt b a.
Definition ge (a b : cell) : exc bool := le b a.

(** [a and b]: [b] is evaluated only when [a] is true. *)
Definition and_ (a : exc bool) (b : exc bool) : exc bool :=
  bind a (fun x => if x then b else Ok false).

End Py.

Import Py.

Notation "x <- m ;; k" := (bind m (fun x => k))
  (at level 61, m at next level, right associativity).

(** ** The data frame *)

(** One OHLCV row, as [fetch_ohlcv_data] builds it. *)
Record candle : Type := mkCandle {
  Timestamp : Z;
  Open : float;
  High : float;
  Low : float;
  Close : float;
  Volume : float
}.

(** One row of the frame once [calculate_technical_indicators] has added its
    columns. *)
Record row : Type := mkRow {
  bar : candle;
  RSI : cell;
  MACD_line : cell;
  MACD_signal : cell;
  MACD_hist : cell;
  EMA50 : cell;
  EMA200 : cell;
  BB_high : cell;
  BB_low : cell;
  BB_mid : cell
}.

(** [df.iloc[-1]] and [df.iloc[-2]]; [None] stands for the [IndexError]. *)
Definition iloc_last {A : Type} (df : list A) : option A :=
  nth_error (rev df) 0.

Definition iloc_prev {A : Type} (df : list A) : option A :=
  nth_error (rev df) 1.

(** ** check_signals *)

Inductive signal : Type := BUY | SELL | NO_SIGNAL.

(** The tuple [check_signals] returns: the signal, then the other
    components in order. *)
Definition result : Type := (signal * list cell)%type.

Definition components (r : result) : nat := S (length (snd r)).

(** The body of the [try] block, for a frame of at least two rows. *)
Definition check_signals_try (latest previous : row) : exc result :=
  let current_price := Some (Close (bar latest)) in
  let rsi := RSI latest in
  let macd_line := MACD_line latest in
  let macd_signal_line := MACD_signal latest in
  let ema50 := EMA50 latest in
  let ema200 := EMA200 latest in
  let values := [current_price; rsi; macd_line; macd_signal_line; ema50; ema200] in
  if isna rsi || isna macd_line || isna macd_signal_line || isna ema50 || isna ema200
     || isna (MACD_line previous) || isna (MACD_signal previous)
     || isna (EMA50 previous) || isna (EMA200 previous)
  then Ok (NO_SIGNAL, values)
  else
    macd_bullish_crossover <-
      and_ (gt macd_line macd_signal_line)
           (le (MACD_line previous) (MACD_signal previous)) ;;
    ema_bullish_crossover <-
      and_ (gt ema50 ema200) (le (EMA50 previous) (EMA200 previous)) ;;
    buy <- and_ (and_ (lt rsi (Some 30%float)) (Ok macd_bullish_crossover))
                (Ok ema_bullish_crossover) ;;
    if buy then Ok (BUY, values)
    else
      macd_bearish_crossover <-
        and_ (lt macd_line macd_signal_line)
             (ge (MACD_line previous) (MACD_signal previous)) ;;
      ema_bearish_crossover <-
        and_ (lt ema50 ema200) (ge (EMA50 previous) (EMA200 previous)) ;;
      sell <- and_ (and_ (gt rsi (Some 70%float)) (Ok macd_bearish_crossover))
                   (Ok ema_bearish_crossover) ;;
      if sell then Ok (SELL, values)
      else Ok (NO_SIGNAL, values).

(** The [except] handler, entered with [latest] bound. *)
Definition check_signals_except (latest : row) : result :=
  (NO_SIGNAL,
   [Some (Close (bar latest)); RSI latest; MACD_line latest;
    MACD_signal latest; EMA50 latest; EMA200 latest]).

(** The six values of the latest row that a seven-component tuple carries
    after the signal. *)
Definition carried (latest : row) : list cell :=
  [Some (Close (bar latest)); RSI latest; MACD_line latest;
   MACD_signal latest; EMA50 latest; EMA200 latest].

(** The component after the signal: [current_price] to the caller. *)
Definition price_of (r : result) : cell := nth 0 (snd r) None.

(** [check_signals df]; [None] is Python's [None] frame. *)
Definition check_signals (df : option (list row)) : result :=
  match df with
  | None => (NO_SIGNAL, [None; None; None; None; None])
  | Some rows =>
      if length rows <? 2
      then (NO_SIGNAL, [None; None; None; None; None])
      else
        match iloc_last rows, iloc_prev rows with
        | Some latest, Some previous =>
            match check_signals_try latest previous with
            | Ok r => r
            | Raise => check_signals_except latest
            end
        | _, _ =>
            (* the handler's last return, when [latest] was never bound *)
            (NO_SIGNAL, [None; None; None; None; None; None])
        end
  end.

(** The caller's [signal, current_price, rsi, macd_line, macd_signal_val,
    ema50, ema200 = check_signals(...)] of [run_analysis]: a tuple of any
    other length raises [ValueError]. *)
Definition unpack7 (r : result)
  : exc (signal * cell * cell * cell * cell * cell * cell) :=
  match snd r with
  | [current_price; rsi; macd_line; macd_signal_val; ema50; ema200] =>
      Ok (fst r, current_price, rsi, macd_line, macd_signal_val, ema50, ema200)
  | _ => Raise
  end.

(** ** calculate_technical_indicators *)

(** The part of the [ta] package the function calls.  Each entry takes the
    constructor's window arguments and the [Close] column, and gives the
    series its method returns, or raises. *)
Record TaLib : Type := mkTaLib {
  rsi : nat -> list float -> exc (list cell);
  macd : nat -> nat -> nat -> list float -> exc (list cell);
  macd_signal : nat -> nat -> nat -> list float -> exc (list cell);
  macd_diff : nat -> nat -> nat -> list float -> exc (list cell);
  ema_indicator : nat -> list float -> exc (list cell);
  bollinger_hband : nat -> float -> list float -> exc (list cell);
  bollinger_lband : nat -> float -> list float -> exc (list cell);
  bollinger_mavg : nat -> float -> list float -> exc (list cell)
}.

(** [df[name] = series]: the series is aligned on the frame's index; a
    label the series lacks is left missing. *)
Definition at_index (col : list cell) (i : nat) : cell := nth i col None.

Section Annotate.

Variables c_rsi c_macd c_signal c_hist c_ema50 c_ema200 : list cell.
Variables c_high c_low c_mid : list cell.

(** The rows of the frame from index [i] on, with the nine columns. *)
Fixpoint annotate (i : nat) (df : list candle) : list row :=
  match df with
  | [] => []
  | c :: rest =>
      mkRow c (at_index c_rsi i) (at_index c_macd i) (at_index c_signal i)
            (at_index c_hist i) (at_index c_ema50 i) (at_index c_ema200 i)
            (at_index c_high i) (at_index c_low i) (at_index c_mid i)
        :: annotate (S i) rest
  end.

End Annotate.

(** The body of the [try] block, for a non-empty frame. *)
Definition calculate_try (ta : TaLib) (df : list candle) : exc (list row) :=
  let close := map Close df in
  c_rsi <- rsi ta 14 close ;;
  c_macd <- macd ta 26 12 9 close ;;
  c_signal <- macd_signal ta 26 12 9 close ;;
  c_hist <- macd_diff ta 26 12 9 close ;;
  c_ema50 <- ema_indicator ta 50 close ;;
  c_ema200 <- ema_indicator ta 200 close ;;
  c_high <- bollinger_hband ta 20 2%float close ;;
  c_low <- bollinger_lband ta 20 2%float close ;;
  c_mid <- bollinger_mavg ta 20 2%float close ;;
  Ok (annotate c_rsi c_macd c_signal c_hist c_ema50 c_ema200
               c_high c_low c_mid 0 df).

(** [calculate_technical_indicators df]: [None] for a missing or empty
    frame and when the body raised. *)
Definition calculate_technical_indicators (ta : TaLib)
    (df : option (list candle)) : option (list row) :=
  match df with
  | None => None
  | Some [] => None
  | Some (c :: rest) =>
      match calculate_try ta (c :: rest) with
      | Ok rows => Some rows
      | Raise => None
      end
  end.

(** ** The indicator formulas

    The source delegates the indicator arithmetic to the [ta] package
    ([ta.momentum.RSIIndicator], [ta.trend.MACD], [ta.trend.EMAIndicator],
    [ta.volatility.BollingerBands]), whose code is not part of the
    repository.  The series below are written from the formulas of the
    specification (section 4.1): each is accumulated in series order, and a
    value that lacks its warm-up history is [None]. *)

Module Indicators.

Definition of_nat (n : nat) : float :=
  PrimFloat.of_uint63 (Uint63.of_Z (Z.of_nat n)).

(** A series computed in one pass: [step] consumes one input, updates the
    state and emits one output. *)
Section Scan.

Context {S A B : Type}.
Variable step : S -> A -> S * B.

Fixpoint run (st : S) (xs : list A) : S :=
  match xs with
  | [] => st
  | x :: rest => run (fst (step st x)) rest
  end.

Fixpoint scan (st : S) (xs : list A) : list B :=
  match xs with
  | [] => []
  | x :: rest => snd (step st x) :: scan (fst (step st x)) rest
  end.

End Scan.

Fixpoint map2 {A B C : Type} (f : A -> B -> C) (xs : list A) (ys : list B)
  : list C :=
  match xs, ys with
  | x :: xs', y :: ys' => f x y :: map2 f xs' ys'
  | _, _ => []
  end.

Definition fsum (xs : list float) : float :=
  fold_left PrimFloat.add xs 0%float.

(** The simple average of [xs]. *)
Definition mean (xs : list float) : float :=
  (fsum xs / of_nat (length xs))%float.

Definition cell_sub (a b : cell) : cell :=
  match a, b with
  | Some x, Some y => Some (x - y)%float
  | _, _ => None
  end.

(** *** Seeded recursive averages *)

Record smooth_state : Type := mkSmooth {
  seen : nat;
  total : float;
  last : cell
}.

Definition smooth_init : smooth_state := mkSmooth 0 0%float None.

Section Smooth.

Variable n : nat.
(** [update e v]: the next average from the previous one and a value. *)
Variable update : float -> float -> float.

(** Modelled from the spec: the recursion shared by [EMA(n)] and by
    Wilder's averages of [ta], which is not in the sources: seeded by
    the simple average of the first [n] values, updated recursively
    afterwards, undefined before the seed.  An undefined input is
    passed over. *)
Definition smooth_step (st : smooth_state) (x : cell)
  : smooth_state * cell :=
  match x with
  | None => (st, None)
  | Some v =>
      match last st with
      | Some e =>
          let e' := update e v in
          (mkSmooth (S (seen st)) (total st) (Some e'), Some e')
      | None =>
          let t := (total st + v)%float in
          if S (seen st) <? n
          then (mkSmooth (S (seen st)) t None, None)
          else
            let e := (t / of_nat n)%float in
            (mkSmooth (S (seen st)) t (Some e), Some e)
      end
  end.

Definition smooth (xs : list cell) : list cell :=
  scan smooth_step smooth_init xs.

End Smooth.

(** *** EMA *)

(** Modelled from the spec: the smoothing factor [2/(n+1)] of [EMA(n)],
    which [ta] keeps to itself. *)
Definition alpha (n : nat) : float := (2 / (of_nat n + 1))%float.

(** Modelled from the spec: the update of [ta]'s [EMA(n)], not in the
    sources: [EMA[i] = close[i] * alpha + EMA[i-1] * (1 - alpha)]. *)
Definition ema_update (n : nat) (e v : float) : float :=
  (v * alpha n + e * (1 - alpha n))%float.

(** Modelled from the spec: [EMA(n)] of [ta.trend.EMAIndicator], which is
    not in the sources: smoothing factor [2/(n+1)], seeded by the simple
    average of the first [n] closes, undefined for index < n-1. *)
Definition ema_series (n : nat) (xs : list cell) : list cell :=
  smooth n (ema_update n) xs.

(** *** RSI *)

(** The positive and the negative part of a delta, both as magnitudes. *)
Definition gain (d : float) : float :=
  if (0 <? d)%float then d else 0%float.

Definition loss (d : float) : float :=
  if (d <? 0)%float then (- d)%float else 0%float.

(** The close-to-close deltas after a close [prev]. *)
Fixpoint diff (prev : float) (xs : list float) : list float :=
  match xs with
  | [] => []
  | x :: rest => (x - prev)%float :: diff x rest
  end.

Definition deltas (xs : list float) : list float :=
  match xs with
  | [] => []
  | x :: rest => diff x rest
  end.

(** Modelled from the spec: the update of Wilder's average inside [ta]'s
    RSI, not in the sources: [avg[i] = (avg[i-1] * (n-1) + d[i]) / n]. *)
Definition wilder_update (n : nat) (e v : float) : float :=
  ((e * of_nat (n - 1) + v) / of_nat n)%float.

(** Modelled from the spec: Wilder's smoothed average over [n] periods,
    computed inside [ta.momentum.RSIIndicator], which is not in the
    sources; seeded, as [EMA(n)] is, by the simple average of the first
    [n] values. *)
Definition wilder (n : nat) (ds : list float) : list cell :=
  smooth n (wilder_update n) (map Some ds).

Definition rsi_of (g l : cell) : cell :=
  match g, l with
  | Some avg_gain, Some avg_loss =>
      Some (100 - 100 / (1 + avg_gain / avg_loss))%float
  | _, _ => None
  end.

Record rsi_state : Type := mkRsi {
  prev_close : cell;
  gains : smooth_state;
  losses : smooth_state
}.

Definition rsi_init : rsi_state := mkRsi None smooth_init smooth_init.

(** Modelled from the spec: one step of [ta]'s RSI, not in the sources:
    the first close only sets the reference; each later close feeds its
    gain and its loss to the two averages. *)
Definition rsi_step (n : nat) (st : rsi_state) (x : float)
  : rsi_state * cell :=
  match prev_close st with
  | None => (mkRsi (Some x) (gains st) (losses st), None)
  | Some p =>
      let d := (x - p)%float in
      let g := smooth_step n (wilder_update n) (gains st) (Some (gain d)) in
      let l := smooth_step n (wilder_update n) (losses st) (Some (loss d)) in
      (mkRsi (Some x) (fst g) (fst l), rsi_of (snd g) (snd l))
  end.

(** Modelled from the spec: [RSI(n)] of [ta.momentum.RSIIndicator], which
    is not in the sources: [100 - 100/(1+RS)] with [RS] the ratio of
    Wilder's averages of the gains and of the losses, defined once [n]
    deltas exist. *)
Definition rsi_series (n : nat) (close : list float) : list cell :=
  scan (rsi_step n) rsi_init close.

(** *** MACD *)

(** Modelled from the spec: the three series of [ta.trend.MACD], which is
    not in the sources: line = EMA(fast) - EMA(slow), signal = EMA(sign)
    of the line, histogram = line - signal. *)
Definition macd_series (slow fast sign : nat) (close : list float)
  : list cell :=
  map2 cell_sub (ema_series fast (map Some close))
                (ema_series slow (map Some close)).

(** Modelled from the spec: [macd_signal] of [ta.trend.MACD], not in the
    sources: EMA(sign) of the line, whose undefined head is passed over. *)
Definition macd_signal_series (slow fast sign : nat) (close : list float)
  : list cell :=
  ema_series sign (macd_series slow fast sign close).

(** Modelled from the spec: [macd_diff] of [ta.trend.MACD], not in the
    sources: line - signal. *)
Definition macd_hist_series (slow fast sign : nat) (close : list float)
  : list cell :=
  map2 cell_sub (macd_series slow fast sign close)
                (macd_signal_series slow fast sign close).

(** *** Bollinger bands *)

(** Modelled from the spec: a statistic of the trailing [n] values, as
    [ta]'s Bollinger bands take it (not in the sources), undefined until
    the window is full.  The state is the window, latest value first. *)
Definition window_step (n : nat) (out : list float -> float)
    (buf : list float) (x : float) : list float * cell :=
  let w := firstn n (x :: buf) in
  (w, if n <=? length w then Some (out (rev w)) else None).

Definition rolling (n : nat) (out : list float -> float) (xs : list float)
  : list cell :=
  scan (window_step n out) [] xs.

(** Modelled from the spec: [stddev20] of the Bollinger bands, not in the
    sources.  The specification does not say which estimator; this is the
    population form, and no property below depends on the choice. *)
Definition stddev (w : list float) : float :=
  PrimFloat.sqrt
    (fsum (map (fun v => ((v - mean w) * (v - mean w))%float) w)
     / of_nat (length w))%float.

(** Modelled from the spec: the bands of
    [ta.volatility.BollingerBands], which is not in the sources: the
    middle band is the simple average of the trailing [n] closes, the
    others lie [k] standard deviations above and below it; undefined for
    index < n-1. *)
Definition bb_mid_series (n : nat) (k : float) (close : list float)
  : list cell :=
  rolling n mean close.

(** Modelled from the spec: [bollinger_hband] of [ta], not in the
    sources: middle band plus [k] standard deviations. *)
Definition bb_high_series (n : nat) (k : float) (close : list float)
  : list cell :=
  rolling n (fun w => (mean w + k * stddev w)%float) close.

(** Modelled from the spec: [bollinger_lband] of [ta], not in the
    sources: middle band minus [k] standard deviations. *)
Definition bb_low_series (n : nat) (k : float) (close : list float)
  : list cell :=
  rolling n (fun w => (mean w - k * stddev w)%float) close.

(** Modelled from the spec: the [ta] package as section 4.1 of the
    specification describes it; no entry raises. *)
Definition spec_ta : TaLib :=
  mkTaLib
    (fun n close => Ok (rsi_series n close))
    (fun slow fast sign close => Ok (macd_series slow fast sign close))
    (fun slow fast sign close => Ok (macd_signal_series slow fast sign close))
    (fun slow fast sign close => Ok (macd_hist_series slow fast sign close))
    (fun n close => Ok (ema_series n (map Some close)))
    (fun n k close => Ok (bb_high_series n k close))
    (fun n k close => Ok (bb_low_series n k close))
    (fun n k close => Ok (bb_mid_series n k close)).

End Indicators.

Import Indicators.

(** The snapshot series of a candle series: the rows the engine returns,
    none when it returns [None]. *)
Definition snapshots (df : list candle) : list row :=
  match calculate_technical_indicators spec_ta (Some df) with
  | Some rows => rows
  | None => []
  end.

(** Row [i] of the frame, from its candle and the nine series of the
    closes. *)
Definition snapshot_at (close : list float) (c : candle) (i : nat) : row :=
  mkRow c
        (at_index (rsi_series 14 close) i)
        (at_index (macd_series 26 12 9 close) i)
        (at_index (macd_signal_series 26 12 9 close) i)
        (at_index (macd_hist_series 26 12 9 close) i)
        (at_index (ema_series 50 (map Some close)) i)
        (at_index (ema_series 200 (map Some close)) i)
        (at_index (bb_high_series 20 2%float close) i)
        (at_index (bb_low_series 20 2%float close) i)
        (at_index (bb_mid_series 20 2%float close) i).

(** ** Properties of a series *)

(** [f] gives one output per input, and the outputs for a series are kept
    when the series grows. *)
Definition causal {A B : Type} (f : list A -> list B) : Prop :=
  forall xs ys,
    length (f xs) = length xs /\ exists zs, f (xs ++ ys) = f xs ++ zs.

(** The values of [col] are defined exactly from index [k] on. *)
Definition defined_from (k : nat) (col : list cell) : Prop :=
  forall i, i < length col -> (at_index col i <> None <-> k <= i).

(** ** The classification rule, as the specification words it *)

Module Rule.

(** A value that is present and is a number. *)
Definition defined (c : cell) : bool := negb (isna c).

Definition lt_c (a b : cell) : bool :=
  match a, b with
  | Some x, Some y => (x <? y)%float
  | _, _ => false
  end.

Definition le_c (a b : cell) : bool :=
  match a, b with
  | Some x, Some y => (x <=? y)%float
  | _, _ => false
  end.

Definition gt_c (a b : cell) : bool := lt_c b a.
Definition ge_c (a b : cell) : bool := le_c b a.

(** The values the rule needs: five of the latest snapshot, four of the
    previous one. *)
Definition required_defined (latest previous : row) : bool :=
  defined (RSI latest) && defined (MACD_line latest)
  && defined (MACD_signal latest) && defined (EMA50 latest)
  && defined (EMA200 latest)
  && defined (MACD_line previous) && defined (MACD_signal previous)
  && defined (EMA50 previous) && defined (EMA200 previous).

Definition macd_bullish_cross (latest previous : row) : bool :=
  gt_c (MACD_line latest) (MACD_signal latest)
  && le_c (MACD_line previous) (MACD_signal previous).

Definition ema_bullish_cross (latest previous : row) : bool :=
  gt_c (EMA50 latest) (EMA200 latest)
  && le_c (EMA50 previous) (EMA200 previous).

Definition macd_bearish_cross (latest previous : row) : bool :=
  lt_c (MACD_line latest) (MACD_signal latest)
  && ge_c (MACD_line previous) (MACD_signal previous).

Definition ema_bearish_cross (latest previous : row) : bool :=
  lt_c (EMA50 latest) (EMA200 latest)
  && ge_c (EMA50 previous) (EMA200 previous).

Definition buy_rule (latest previous : row) : bool :=
  lt_c (RSI latest) (Some 30%float)
  && macd_bullish_cross latest previous
  && ema_bullish_cross latest previous.

Definition sell_rule (latest previous : row) : bool :=
  gt_c (RSI latest) (Some 70%float)
  && macd_bearish_cross latest previous
  && ema_bearish_cross latest previous.

End Rule.

Import Rule.

(** The result on a frame of at least two rows, from its last two rows. *)
Definition classify_window (latest previous : row) : result :=
  (if required_defined latest previous
   then if buy_rule latest previous then BUY
        else if sell_rule latest previous then SELL else NO_SIGNAL
   else NO_SIGNAL,
   carried latest).

(** ** What check_signals reads *)

(** The values of the latest row, and of the previous row, that
    [check_signals] looks at. *)
Definition latest_view (r : row)
  : float * cell * cell * cell * cell * cell :=
  (Close (bar r), RSI r, MACD_line r, MACD_signal r, EMA50 r, EMA200 r).

Definition previous_view (r : row) : cell * cell * cell * cell :=
  (MACD_line r, MACD_signal r, EMA50 r, EMA200 r).

(** ** The engine with any indicator library *)

(** The frame the engine returns, empty when it returns [None]. *)
Definition frame (ta : TaLib) (df : list candle) : list row :=
  match calculate_technical_indicators ta (Some df) with
  | Some rows => rows
  | None => []
  end.

(** A library call that does not raise and whose series has no
    look-ahead. *)
Definition without_lookahead (f : list float -> exc (list cell)) : Prop :=
  exists g, causal g /\ forall close, f close = Ok (g close).

(** The nine calls of [calculate_technical_indicators] are such. *)
Definition causal_library (ta : TaLib) : Prop :=
  without_lookahead (rsi ta 14)
  /\ without_lookahead (macd ta 26 12 9)
  /\ without_lookahead (macd_signal ta 26 12 9)
  /\ without_lookahead (macd_diff ta 26 12 9)
  /\ without_lookahead (ema_indicator ta 50)
  /\ without_lookahead (ema_indicator ta 200)
  /\ without_lookahead (bollinger_hband ta 20 2%float)
  /\ without_lookahead (bollinger_lband ta 20 2%float)
  /\ without_lookahead (bollinger_mavg ta 20 2%float).

(** ** The outside *)

(** What the functions take from outside: the rendering of a time by
    [strftime("%Y-%m-%d %H:%M:%S")] (times in milliseconds), the rendering
    [f"{x:.Nf}"] of a float with [N] decimals, the reading of
    [datetime.now()], whether [LOG_FILE] can be opened for writing, and
    whether [pd.to_datetime(..., unit='ms')] accepts a timestamp (it raises
    on one it cannot represent). *)
Record world : Type := mkWorld {
  strftime : Z -> String.string;
  fixed : nat -> float -> String.string;
  now : Z;
  writable : bool;
  datetime_ok : Z -> bool
}.

(** ** fetch_ohlcv_data *)

(** [DATA_LIMIT]. *)
Definition DATA_LIMIT : nat := 250.

(** [exchange.fetch_ohlcv(pair, timeframe, limit=limit)]: the rows
    [timestamp, open, high, low, close, volume] it answers, or an exception
    ([ccxt.NetworkError], [ccxt.ExchangeError] or any other). *)
Definition exchange : Type :=
  String.string -> String.string -> nat -> exc (list candle).

(** [fetch_ohlcv_data exchange pair timeframe limit]: [None] when the
    exchange raised or answered no row, and when the conversion of the
    [Timestamp] column by [pd.to_datetime] raised, which the [except] of
    lines 101-103 catches; the frame of the rows otherwise.  A row has its
    six numbers, so the frame is built and [pd.to_numeric] leaves the
    other columns as they are. *)
Definition fetch_ohlcv_data (w : world) (ex : exchange)
    (pair timeframe : String.string) (limit : nat) : option (list candle) :=
  match ex pair timeframe limit with
  | Raise => None
  | Ok [] => None
  | Ok ohlcv =>
      if forallb (fun c => datetime_ok w (Timestamp c)) ohlcv
      then Some ohlcv
      else None
  end.

(** ** log_to_csv *)

(** [LOG_FILE] as the lines it holds, each line as its fields; [None] when
    no such file exists. *)
Definition line : Type := list String.string.
Definition file : Type := option (list line).

(** The [timestamp] argument: a [datetime], or anything else. *)
Inductive pytime : Type :=
| Datetime (t : Z)
| NotDatetime.

Definition fieldnames : line :=
  ["Timestamp"; "Pair"; "Price"; "RSI"; "MACD_Line"; "MACD_Signal";
   "EMA50"; "EMA200"; "Signal"]%string.

(** [f"{x:.Nf}" if x is not None else 'N/A']. *)
Definition show (w : world) (digits : nat) (x : cell) : String.string :=
  match x with
  | Some v => fixed w digits v
  | None => "N/A"%string
  end.

(** The [data_row] of [log_to_csv], in the order of its keys. *)
Definition data_row (w : world) (timestamp : pytime) (pair : String.string)
    (price rsi macd_line macd_signal ema50 ema200 : cell)
    (signal_type : String.string) : line :=
  let log_timestamp_str :=
    match timestamp with
    | Datetime t => strftime w t
    | NotDatetime => strftime w (now w)
    end in
  [log_timestamp_str; pair; show w 8 price; show w 2 rsi;
   show w 5 macd_line; show w 5 macd_signal; show w 8 ema50;
   show w 8 ema200; signal_type].

(** [log_to_csv]: the row is appended, after the header when
    [os.path.isfile(LOG_FILE)] was false; when the file cannot be opened the
    exception is caught and nothing is written. *)
Definition log_to_csv (w : world) (timestamp : pytime) (pair : String.string)
    (price rsi macd_line macd_signal ema50 ema200 : cell)
    (signal_type : String.string) (f : file) : file :=
  let row :=
    data_row w timestamp pair price rsi macd_line macd_signal ema50 ema200
             signal_type in
  if writable w
  then
    match f with
    | None => Some [fieldnames; row]
    | Some lines => Some (lines ++ [row])
    end
  else f.

(** ** run_analysis *)

Definition signal_name (s : signal) : String.string :=
  match s with
  | BUY => "BUY"%string
  | SELL => "SELL"%string
  | NO_SIGNAL => "NO_SIGNAL"%string
  end.

(** How a run ends: it returns, or the unpacking of the tuple of
    [check_signals] raises [ValueError], which nothing catches. *)
Inductive outcome : Type :=
| Returned
| ValueError.

(** [run_analysis exchange pair timeframe], as the end of the run and the
    log file after it; what it prints is left out. *)
Definition run_analysis (w : world) (ta : TaLib) (ex : exchange)
    (pair timeframe : String.string) (f : file) : outcome * file :=
  match fetch_ohlcv_data w ex pair timeframe DATA_LIMIT with
  | None | Some [] =>
      (Returned,
       log_to_csv w (Datetime (now w)) pair None None None None None None
                  "DATA_FETCH_ERROR"%string f)
  | Some ohlcv_df =>
      match calculate_technical_indicators ta (Some ohlcv_df) with
      | None | Some [] =>
          (Returned,
           log_to_csv w (Datetime (now w)) pair None None None None None None
                      "INDICATOR_CALC_ERROR"%string f)
      | Some df_with_indicators =>
          match unpack7 (check_signals (Some df_with_indicators)) with
          | Raise => (ValueError, f)
          | Ok (s, current_price, rsi, macd_line, macd_signal_val,
                ema50, ema200) =>
              let name := signal_name s in
              if String.eqb name "BUY"%string
                 || String.eqb name "SELL"%string
              then
                match iloc_last df_with_indicators with
                | Some latest =>
                    (Returned,
                     log_to_csv w (Datetime (Timestamp (bar latest))) pair
                                current_price rsi macd_line macd_signal_val
                                ema50 ema200 name f)
                | None => (Returned, f) (* not reached: the frame has a row *)
                end
              else if String.eqb name "NO_SIGNAL"%string
              then (Returned, f)
              else
                (Returned,
                 log_to_csv w (Datetime (now w)) pair
                            current_price rsi macd_line macd_signal_val
                            ema50 ema200
                            (String.append "UNKNOWN_STATE: "%string name) f)
          end
      end
  end.

(** The exchange answers one candle for a pair, its timestamp converts,
    and the library does not raise on it. *)
Definition one_candle_answer (w : world) (ta : TaLib) (ex : exchange)
    (p : String.string * String.string) : Prop :=
  exists c rows,
    ex (fst p) (snd p) DATA_LIMIT = Ok [c]
    /\ datetime_ok w (Timestamp c) = true
    /\ calculate_try ta [c] = Ok rows.

(** ** The start of main *)

(** Lines 332-340: the header is written when the file is missing or
    empty. *)
Definition init_log (w : world) (f : file) : file :=
  match f with
  | None | Some [] => if writable w then Some [fieldnames] else f
  | Some _ => f
  end.

(** Lines 349-351: one run per configured pair, in order; an exception of
    a run ends the loop. *)
Fixpoint initial_analysis (w : world) (ta : TaLib) (ex : exchange)
    (pairs : list (String.string * String.string)) (f : file)
  : outcome * file :=
  match pairs with
  | [] => (Returned, f)
  | (symbol, timeframe) :: rest =>
      match run_analysis w ta ex symbol timeframe f with
      | (Returned, f') => initial_analysis w ta ex rest f'
      | (ValueError, f') => (ValueError, f')
      end
  end.

(** [TRADING_PAIRS_TIMEFRAMES]. *)
Definition TRADING_PAIRS_TIMEFRAMES : list (String.string * String.string) :=
  [("BTC/USDT", "1h"); ("ETH/USDT", "1h"); ("LTC/USDT", "1h")]%string.

(** The start of [main] once the exchange is connected: the header, then
    the first round of runs. *)
Definition main_start (w : world) (ta : TaLib) (ex : exchange) (f : file)
  : outcome * file :=
  initial_analysis w ta ex TRADING_PAIRS_TIMEFRAMES (init_log w f).

(** The lines of a file, none when it does not exist. *)
Definition lines_of (f : file) : list line :=
  match f with
  | Some lines => lines
  | None => []
  end.

(** A log whose first line is the header and whose other lines have the
    nine fields each; a missing file counts. *)
Definition well_formed (f : file) : Prop :=
  match f with
  | None => True
  | Some lines =>
      exists rows,
        lines = fieldnames :: rows /\ Forall (fun r => length r = 9) rows
  end.

(** Sample rows: a bullish cross under an oversold RSI, and a one-row
    frame. *)
Definition sample_bar (close : float) : candle :=
  mkCandle 0 close close close close 1%float.

Definition sample_previous : row :=
  mkRow (sample_bar 99%float) (Some 35%float) (Some 0%float) (Some 1%float)
        (Some (-1)%float) (Some 1%float) (Some 2%float)
        (Some 110%float) (Some 90%float) (Some 100%float).

Definition sample_latest : row :=
  mkRow (sample_bar 100%float) (Some 25%float) (Some 2%float) (Some 1%float)
        (Some 1%float) (Some 3%float) (Some 2%float)
        (Some 110%float) (Some 90%float) (Some 100%float).

(** The same latest row before its slow average has warmed up. *)
Definition sample_cold : row :=
  mkRow (sample_bar 100%float) (Some 25%float) (Some 2%float) (Some 1%float)
        (Some 1%float) (Some 3%float) None
        (Some 110%float) (Some 90%float) (Some 100%float).

(** A series of [k] candles whose closes move between 100 and 110. *)
Definition sample_series (k : nat) : list candle :=
  map (fun j => sample_bar (of_nat (100 + (j * 7) mod 11))) (seq 0 k).

(** A library for two-row samples: it answers fixed series on which both
    bullish crosses and an oversold RSI fall on the second row. *)
Definition sample_ta : TaLib :=
  mkTaLib
    (fun _ _ => Ok [Some 35%float; Some 25%float])
    (fun _ _ _ _ => Ok [Some 0%float; Some 2%float])
    (fun _ _ _ _ => Ok [Some 1%float; Some 1%float])
    (fun _ _ _ _ => Ok [Some (-1)%float; Some 1%float])
    (fun n _ =>
       if n =? 50 then Ok [Some 1%float; Some 3%float]
       else Ok [Some 2%float; Some 2%float])
    (fun _ _ _ => Ok [None; None])
    (fun _ _ _ => Ok [None; None])
    (fun _ _ _ => Ok [None; None]).

(** An exchange that answers the same [k] candles to every request. *)
Definition sample_exchange (k : nat) : exchange :=
  fun _ _ _ => Ok (sample_series k).

Definition sample_world : world :=
  mkWorld (fun _ => "2024-01-01 00:00:00"%string) (fun _ _ => "0.0"%string)
          0%Z true (fun _ => true).

(** * Properties *)

(** ** Floats *)

Lemma SFcompare_Lt_swap (a b : spec_float) :
  SFcompare a b = Some Lt -> SFcompare b a = Some Gt.
Proof.
  destruct a as [sa | sa | | sa ma ea], b as [sb | sb | | sb mb eb];
    cbn; try discriminate; try (destruct sa, sb; cbn; congruence);
    try (destruct sa; cbn; congruence); try (destruct sb; cbn; congruence).
  assert (Hm : Pos.compare_cont Eq mb ma = CompOpp (Pos.compare_cont Eq ma mb))
    by apply (Pos.compare_antisym ma mb).
  rewrite (Z.compare_antisym ea eb), Hm.
  destruct sa, sb; cbn; try congruence;
    destruct (ea ?= eb)%Z; cbn; try congruence;
    destruct (Pos.compare_cont Eq ma mb); cbn; congruence.
Qed.

(** IEEE's [<] is asymmetric. *)
Lemma ltb_asym (x y : float) :
  (x <? y)%float = true -> (y <? x)%float = false.
Proof.
  rewrite !ltb_spec. unfold SFltb.
  destruct (SFcompare (Prim2SF x) (Prim2SF y)) as [[ | | ] | ] eqn:E;
    try discriminate.
  intros _. now rewrite (SFcompare_Lt_swap _ _ E).
Qed.

(** ** Frames of at least two rows *)

Lemma iloc_last_snoc2 {A : Type} (pre : list A) (p l : A) :
  iloc_last (pre ++ [p; l]) = Some l.
Proof. unfold iloc_last. now rewrite rev_app_distr. Qed.

Lemma iloc_prev_snoc2 {A : Type} (pre : list A) (p l : A) :
  iloc_prev (pre ++ [p; l]) = Some p.
Proof. unfold iloc_prev. now rewrite rev_app_distr. Qed.

Lemma length_snoc2 {A : Type} (pre : list A) (p l : A) :
  (length (pre ++ [p; l]) <? 2) = false.
Proof. apply Nat.ltb_ge. rewrite length_app. cbn [length]. lia. Qed.

(** A frame of at least two rows ends in a previous and a latest row. *)
Lemma two_rows_inv {A : Type} (rows : list A) :
  2 <= length rows -> exists pre p l, rows = pre ++ [p; l].
Proof.
  intros H. destruct (rev rows) as [ | l [ | p t]] eqn:E.
  - apply (f_equal (@length A)) in E. rewrite length_rev in E. cbn in E. lia.
  - apply (f_equal (@length A)) in E. rewrite length_rev in E. cbn in E. lia.
  - exists (rev t), p, l. rewrite <- (rev_involutive rows), E. cbn.
    now rewrite <- app_assoc.
Qed.

Lemma check_signals_snoc2 (pre : list row) (previous latest : row) :
  check_signals (Some (pre ++ [previous; latest])) =
  match check_signals_try latest previous with
  | Ok r => r
  | Raise => check_signals_except latest
  end.
Proof.
  unfold check_signals.
  now rewrite length_snoc2, iloc_last_snoc2, iloc_prev_snoc2.
Qed.

(** ** The try block of check_signals *)

Lemma defined_inv (c : cell) :
  defined c = true -> exists f, c = Some f /\ is_nan f = false.
Proof.
  unfold defined. destruct c as [f | ]; cbn; [ | discriminate ].
  intros H. exists f. split; [ reflexivity | ].
  now apply negb_true_iff.
Qed.

Ltac split_ands :=
  repeat match goal with
         | H : _ && _ = true |- _ => apply andb_true_iff in H; destruct H
         end.

Ltac name_cells :=
  repeat match goal with
         | H : defined ?c = true |- _ =>
             let f := fresh "f" in
             let E := fresh "E" in
             let N := fresh "N" in
             destruct (defined_inv c H) as (f & E & N); clear H
         end.

Ltac case_ifs :=
  repeat match goal with
         | |- context [if ?b then _ else _] => destruct b; cbn
         end.

(** When every required value is defined, the try block returns the signal
    of the rule together with the six values of the latest row. *)
Lemma check_signals_try_defined (latest previous : row) :
  required_defined latest previous = true ->
  check_signals_try latest previous =
  Ok (if buy_rule latest previous then BUY
      else if sell_rule latest previous then SELL else NO_SIGNAL,
      carried latest).
Proof.
  intros H. unfold required_defined in H. split_ands. name_cells.
  unfold check_signals_try, buy_rule, sell_rule, carried,
    macd_bullish_cross, ema_bullish_cross, macd_bearish_cross,
    ema_bearish_cross, gt_c, ge_c, gt, ge.
  repeat match goal with E : _ = Some _ |- _ => rewrite E; clear E end.
  cbn [isna lt le lt_c le_c and_ bind].
  repeat match goal with N : is_nan _ = false |- _ => rewrite N; clear N end.
  cbn [orb]. case_ifs; reflexivity.
Qed.

(** When one of them is missing, it returns [NO_SIGNAL] with the same six
    values. *)
Lemma check_signals_try_missing (latest previous : row) :
  required_defined latest previous = false ->
  check_signals_try latest previous = Ok (NO_SIGNAL, carried latest).
Proof.
  unfold required_defined, defined, check_signals_try. intros H.
  rewrite <- !negb_orb in H. apply negb_false_iff in H.
  now rewrite H.
Qed.

(** The try block never raises: the [except] handler is not reached. *)
Lemma check_signals_try_ok (latest previous : row) :
  exists r, check_signals_try latest previous = Ok r.
Proof.
  destruct (required_defined latest previous) eqn:E.
  - eexists. now apply check_signals_try_defined.
  - eexists. now apply check_signals_try_missing.
Qed.

Lemma check_signals_window (rows : list row) (latest previous : row) :
  iloc_last rows = Some latest ->
  iloc_prev rows = Some previous ->
  check_signals (Some rows) = classify_window latest previous.
Proof.
  intros Hl Hp.
  assert (L : 2 <= length rows).
  { unfold iloc_prev in Hp.
    assert (1 < length (rev rows)) by (apply nth_error_Some; congruence).
    now rewrite length_rev in *. }
  destruct (two_rows_inv rows L) as (pre & p & l & ->).
  rewrite iloc_last_snoc2 in Hl. rewrite iloc_prev_snoc2 in Hp.
  injection Hl as ->. injection Hp as ->.
  rewrite check_signals_snoc2. unfold classify_window.
  destruct (required_defined latest previous) eqn:E.
  - now rewrite check_signals_try_defined.
  - now rewrite check_signals_try_missing.
Qed.

(** The two rules exclude each other. *)
Lemma buy_sell_exclusive (latest previous : row) :
  buy_rule latest previous = true -> sell_rule latest previous = false.
Proof.
  unfold buy_rule, sell_rule, macd_bullish_cross, macd_bearish_cross, gt_c.
  intros H. split_ands.
  destruct (MACD_line latest) as [ml | ], (MACD_signal latest) as [ms | ];
    cbn in *; try discriminate.
  rewrite (ltb_asym ms ml) by assumption.
  cbn. now rewrite andb_false_r.
Qed.

(** ** The classifier *)

(** C1. On a frame of at least two rows whose required values are all
    defined, the signal is BUY exactly when the latest RSI is below 30 and
    both bullish crossovers hold, SELL exactly when it is above 70 and both
    bearish crossovers hold, and NO_SIGNAL in every other case; so an RSI
    that is not extreme, or a missing crossover on both sides, gives
    NO_SIGNAL. *)
Theorem check_signals_rule (rows : list row) (latest previous : row) :
  2 <= length rows ->
  iloc_last rows = Some latest ->
  iloc_prev rows = Some previous ->
  required_defined latest previous = true ->
  let r := check_signals (Some rows) in
  (fst r = BUY <-> buy_rule latest previous = true)
  /\ (fst r = SELL <-> sell_rule latest previous = true)
  /\ (fst r = NO_SIGNAL <->
      buy_rule latest previous = false /\ sell_rule latest previous = false)
  /\ (lt_c (RSI latest) (Some 30%float) = false ->
      gt_c (RSI latest) (Some 70%float) = false -> fst r = NO_SIGNAL)
  /\ (macd_bullish_cross latest previous && ema_bullish_cross latest previous
        = false ->
      macd_bearish_cross latest previous && ema_bearish_cross latest previous
        = false ->
      fst r = NO_SIGNAL).
Proof.
  intros _ Hl Hp D r. subst r.
  rewrite (check_signals_window rows latest previous Hl Hp).
  unfold classify_window. rewrite D. cbn [fst]. clear Hl Hp.
  pose proof (buy_sell_exclusive latest previous) as X.
  unfold buy_rule, sell_rule in *.
  destruct (lt_c (RSI latest) (Some 30%float)),
           (gt_c (RSI latest) (Some 70%float)),
           (macd_bullish_cross latest previous),
           (ema_bullish_cross latest previous),
           (macd_bearish_cross latest previous),
           (ema_bearish_cross latest previous);
    cbn in *; intuition congruence.
Qed.

Lemma check_signals_rule_witness :
  fst (check_signals (Some [sample_previous; sample_latest])) = BUY.
Proof.
  apply (check_signals_rule [sample_previous; sample_latest]
           sample_latest sample_previous); [ cbn; lia | reflexivity .. ].
Defined.

(** C2, as stated, fails: on a frame of one row the tuple carries no
    price, although the row has a close. *)
Lemma short_series_price_counterexample :
  check_signals (Some [sample_latest]) =
    (NO_SIGNAL, [None; None; None; None; None])
  /\ price_of (check_signals (Some [sample_latest]))
     <> Some (Close (bar sample_latest)).
Proof. split; [ reflexivity | discriminate ]. Qed.

(** C2, amended. On a frame of fewer than two rows, and on a missing
    frame, the result is NO_SIGNAL with an undefined price, even when one
    candle exists, and every value after it undefined: nothing is copied
    from the latest row. *)
Theorem check_signals_short (rows : list row) :
  length rows < 2 ->
  (fst (check_signals (Some rows)) = NO_SIGNAL
   /\ price_of (check_signals (Some rows)) = None
   /\ exists others,
       snd (check_signals (Some rows)) = None :: others
       /\ Forall (fun v => v = None) others)
  /\ (fst (check_signals None) = NO_SIGNAL
      /\ price_of (check_signals None) = None
      /\ exists others,
          snd (check_signals None) = None :: others
          /\ Forall (fun v => v = None) others).
Proof.
  intros H. unfold price_of, check_signals.
  apply Nat.ltb_lt in H. rewrite H. cbn.
  split; (split; [ reflexivity | ]); (split; [ reflexivity | ]);
    eexists; (split; [ reflexivity | ]); now repeat constructor.
Qed.

Lemma check_signals_short_witness :
  fst (check_signals (Some [sample_latest])) = NO_SIGNAL
  /\ price_of (check_signals (Some [sample_latest])) = None
  /\ exists others,
      snd (check_signals (Some [sample_latest])) = None :: others
      /\ Forall (fun v => v = None) others.
Proof. apply (check_signals_short [sample_latest]). cbn. lia. Defined.

(** C3. On a frame of at least two rows, when one of the five required
    values of the latest row or of the four required values of the previous
    row is missing, the result is NO_SIGNAL and carries the close and the
    indicator values of the latest row as they are read. *)
Theorem check_signals_missing (rows : list row) (latest previous : row) :
  2 <= length rows ->
  iloc_last rows = Some latest ->
  iloc_prev rows = Some previous ->
  isna (RSI latest) = true \/ isna (MACD_line latest) = true
  \/ isna (MACD_signal latest) = true \/ isna (EMA50 latest) = true
  \/ isna (EMA200 latest) = true
  \/ isna (MACD_line previous) = true \/ isna (MACD_signal previous) = true
  \/ isna (EMA50 previous) = true \/ isna (EMA200 previous) = true ->
  check_signals (Some rows) =
  (NO_SIGNAL,
   [Some (Close (bar latest)); RSI latest; MACD_line latest;
    MACD_signal latest; EMA50 latest; EMA200 latest]).
Proof.
  intros _ Hl Hp H.
  rewrite (check_signals_window rows latest previous Hl Hp).
  unfold classify_window.
  replace (required_defined latest previous) with false; [ reflexivity | ].
  symmetry. unfold required_defined, defined.
  repeat match goal with
         | H : _ \/ _ |- _ => destruct H as [H | H]
         end; rewrite H; cbn; now rewrite ?andb_false_r.
Qed.

Lemma check_signals_missing_witness :
  check_signals (Some [sample_previous; sample_cold]) =
  (NO_SIGNAL,
   [Some 100%float; Some 25%float; Some 2%float; Some 1%float;
    Some 3%float; None]).
Proof.
  apply (check_signals_missing [sample_previous; sample_cold]
           sample_cold sample_previous);
    [ cbn; lia | reflexivity | reflexivity | ].
  do 4 right. left. reflexivity.
Defined.

(** C9. Two frames of at least two rows that end in the same two rows get
    the same result: the result depends on the last two rows only. *)
Theorem check_signals_same_window (rows1 rows2 : list row)
    (latest previous : row) :
  2 <= length rows1 ->
  2 <= length rows2 ->
  iloc_last rows1 = Some latest ->
  iloc_prev rows1 = Some previous ->
  iloc_last rows2 = Some latest ->
  iloc_prev rows2 = Some previous ->
  check_signals (Some rows1) = check_signals (Some rows2).
Proof.
  intros _ _ Hl1 Hp1 Hl2 Hp2.
  rewrite (check_signals_window rows1 latest previous Hl1 Hp1).
  now rewrite (check_signals_window rows2 latest previous Hl2 Hp2).
Qed.

Lemma check_signals_same_window_witness :
  check_signals (Some [sample_previous; sample_latest]) =
  check_signals (Some [sample_cold; sample_previous; sample_latest]).
Proof.
  apply (check_signals_same_window _ _ sample_latest sample_previous);
    [ cbn; lia | cbn; lia | reflexivity .. ].
Defined.

(** A different result needs a different window. *)
Lemma check_signals_new_window (rows1 rows2 : list row)
    (latest1 previous1 latest2 previous2 : row) :
  iloc_last rows1 = Some latest1 ->
  iloc_prev rows1 = Some previous1 ->
  iloc_last rows2 = Some latest2 ->
  iloc_prev rows2 = Some previous2 ->
  check_signals (Some rows1) <> check_signals (Some rows2) ->
  (latest1, previous1) <> (latest2, previous2).
Proof.
  intros Hl1 Hp1 Hl2 Hp2 N E. injection E as -> ->. apply N.
  rewrite (check_signals_window rows1 latest2 previous2 Hl1 Hp1).
  now rewrite (check_signals_window rows2 latest2 previous2 Hl2 Hp2).
Qed.

(** C10. The tuple has six components on a frame of fewer than two rows
    and seven on any other frame, so the unpacking into seven names by the
    caller raises on the first and succeeds on the second. *)
Theorem check_signals_components (rows : list row) :
  let r := check_signals (Some rows) in
  if length rows <? 2
  then components r = 6 /\ unpack7 r = Raise
  else components r = 7 /\ exists t, unpack7 r = Ok t.
Proof.
  cbn zeta. destruct (length rows <? 2) eqn:L.
  - unfold check_signals. rewrite L. split; reflexivity.
  - apply Nat.ltb_ge in L.
    destruct (two_rows_inv rows L) as (pre & p & l & ->).
    rewrite (check_signals_window _ l p)
      by (apply iloc_last_snoc2 || apply iloc_prev_snoc2).
    unfold classify_window, unpack7, components, carried. cbn.
    split; [ reflexivity | eexists; reflexivity ].
Qed.

(** ** The scenarios of the specification *)

(** A bearish cross of both pairs under an overbought RSI. *)
Example scenario_sell :
  check_signals
    (Some [mkRow (sample_bar 101%float) (Some 65%float) (Some 1%float)
                 (Some 0%float) (Some 1%float) (Some 2%float) (Some 1%float)
                 None None None;
           mkRow (sample_bar 100%float) (Some 75%float) (Some 0%float)
                 (Some 1%float) (Some (-1)%float) (Some 1%float)
                 (Some 2%float) None None None])
  = (SELL, [Some 100%float; Some 75%float; Some 0%float; Some 1%float;
            Some 1%float; Some 2%float]).
Proof. reflexivity. Qed.

(** An oversold RSI and a bullish MACD cross, but EMA50 still below
    EMA200. *)
Example scenario_no_ema_cross :
  fst (check_signals
         (Some [sample_previous;
                mkRow (sample_bar 100%float) (Some 25%float) (Some 2%float)
                      (Some 1%float) (Some 1%float) (Some 1%float)
                      (Some 2%float) None None None]))
  = NO_SIGNAL.
Proof. reflexivity. Qed.

(** Both bullish crosses, but an RSI of exactly 30. *)
Example scenario_rsi_not_extreme :
  fst (check_signals
         (Some [sample_previous;
                mkRow (sample_bar 100%float) (Some 30%float) (Some 2%float)
                      (Some 1%float) (Some 1%float) (Some 3%float)
                      (Some 2%float) None None None]))
  = NO_SIGNAL.
Proof. reflexivity. Qed.

(** A NaN is a missing value to the guard. *)
Example scenario_nan_rsi :
  fst (check_signals
         (Some [sample_previous;
                mkRow (sample_bar 100%float) (Some PrimFloat.nan)
                      (Some 2%float) (Some 1%float) (Some 1%float)
                      (Some 3%float) (Some 2%float) None None None]))
  = NO_SIGNAL.
Proof. reflexivity. Qed.

(** ** One-pass series *)

Section ScanFacts.

Context {S A B : Type}.
Variable step : S -> A -> S * B.

Lemma scan_length (xs : list A) (st : S) :
  length (scan step st xs) = length xs.
Proof.
  revert st. induction xs as [ | x xs IH]; intros st; cbn; [ reflexivity | ].
  now rewrite IH.
Qed.

Lemma run_app (xs ys : list A) (st : S) :
  run step st (xs ++ ys) = run step (run step st xs) ys.
Proof.
  revert st. induction xs as [ | x xs IH]; intros st; cbn; [ reflexivity | ].
  apply IH.
Qed.

Lemma scan_app (xs ys : list A) (st : S) :
  scan step st (xs ++ ys) =
  scan step st xs ++ scan step (run step st xs) ys.
Proof.
  revert st. induction xs as [ | x xs IH]; intros st; cbn; [ reflexivity | ].
  now rewrite IH.
Qed.

(** The output at index [i] is the step taken from the state reached on
    the first [i] inputs. *)
Lemma scan_nth_error (xs : list A) (st : S) (i : nat) (x : A) :
  nth_error xs i = Some x ->
  nth_error (scan step st xs) i =
  Some (snd (step (run step st (firstn i xs)) x)).
Proof.
  revert st i. induction xs as [ | y xs IH]; intros st [ | i] H;
    cbn in *; try discriminate.
  - now injection H as ->.
  - now apply IH.
Qed.

End ScanFacts.

(** ** Series without look-ahead *)

Lemma causal_scan {S A B : Type} (step : S -> A -> S * B) (st : S) :
  causal (scan step st).
Proof.
  intros xs ys. split; [ apply scan_length | ].
  rewrite scan_app. eexists. reflexivity.
Qed.

Lemma causal_map {A B : Type} (h : A -> B) : causal (map h).
Proof.
  intros xs ys. split; [ apply length_map | ].
  rewrite map_app. eexists. reflexivity.
Qed.

Lemma causal_compose {A B C : Type} (f : list A -> list B)
    (g : list B -> list C) :
  causal f -> causal g -> causal (fun xs => g (f xs)).
Proof.
  intros Hf Hg xs ys. destruct (Hf xs ys) as (Lf & zs & Ef). split.
  - destruct (Hg (f xs) []) as (Lg & _). now rewrite Lg.
  - rewrite Ef. destruct (Hg (f xs) zs) as (_ & ws & Eg).
    exists ws. exact Eg.
Qed.

Lemma map2_length {A B C : Type} (h : A -> B -> C) (xs : list A)
    (ys : list B) :
  length xs = length ys -> length (map2 h xs ys) = length xs.
Proof.
  revert ys. induction xs as [ | x xs IH]; intros [ | y ys] H; cbn in *;
    try discriminate; [ reflexivity | ].
  f_equal. apply IH. lia.
Qed.

Lemma map2_app {A B C : Type} (h : A -> B -> C) (xs xs' : list A)
    (ys ys' : list B) :
  length xs = length ys ->
  map2 h (xs ++ xs') (ys ++ ys') = map2 h xs ys ++ map2 h xs' ys'.
Proof.
  revert ys. induction xs as [ | x xs IH]; intros [ | y ys] H; cbn in *;
    try discriminate; [ reflexivity | ].
  f_equal. apply IH. lia.
Qed.

Lemma causal_map2 {A B C D : Type} (h : B -> C -> D) (f : list A -> list B)
    (g : list A -> list C) :
  causal f -> causal g -> causal (fun xs => map2 h (f xs) (g xs)).
Proof.
  intros Hf Hg xs ys.
  destruct (Hf xs ys) as (Lf & zf & Ef), (Hg xs ys) as (Lg & zg & Eg).
  split.
  - rewrite map2_length; congruence.
  - rewrite Ef, Eg, map2_app by congruence. eexists. reflexivity.
Qed.

(** A value at an index of the shorter series is the value at that index
    of the longer one. *)
Lemma causal_at_index {A : Type} (f : list A -> list cell) (xs ys : list A)
    (i : nat) :
  causal f -> i < length xs -> at_index (f (xs ++ ys)) i = at_index (f xs) i.
Proof.
  intros Hf Hi. destruct (Hf xs ys) as (L & zs & E).
  unfold at_index. rewrite E. apply app_nth1. lia.
Qed.

Lemma map2_at_index (h : cell -> cell -> cell) (xs ys : list cell) (i : nat) :
  length xs = length ys -> i < length xs ->
  at_index (map2 h xs ys) i = h (at_index xs i) (at_index ys i).
Proof.
  unfold at_index.
  revert ys i. induction xs as [ | x xs IH]; intros [ | y ys] i H Hi;
    cbn in *; try discriminate; try lia.
  destruct i as [ | i]; [ reflexivity | ]. apply IH; lia.
Qed.

(** ** Seeded recursive averages *)

Lemma fsum_snoc (l : list float) (v : float) :
  fsum (l ++ [v]) = (fsum l + v)%float.
Proof. unfold fsum. now rewrite fold_left_app. Qed.

Lemma firstn_snoc {A : Type} (xs : list A) (k : nat) (x : A) :
  nth_error xs k = Some x -> firstn (S k) xs = firstn k xs ++ [x].
Proof.
  revert k. induction xs as [ | y xs IH]; intros [ | k] H; cbn in *;
    try discriminate.
  - now injection H as ->.
  - f_equal. now apply IH.
Qed.

Lemma nth_error_at_index (col : list cell) (i : nat) (c : cell) :
  nth_error col i = Some c -> at_index col i = c.
Proof. intros H. unfold at_index. now apply nth_error_nth. Qed.

Section SmoothFacts.

Variable n : nat.
Variable update : float -> float -> float.
Hypothesis n_positive : 1 <= n.

Let step := smooth_step n update.

(** During the warm-up the state counts the values and keeps their sum. *)
Lemma run_warmup (vs : list float) (k : nat) :
  k < n -> k <= length vs ->
  run step smooth_init (map Some (firstn k vs)) =
  mkSmooth k (fsum (firstn k vs)) None.
Proof.
  induction k as [ | k IH]; intros Hk Hl; [ reflexivity | ].
  destruct (nth_error vs k) as [v | ] eqn:E;
    [ | apply nth_error_None in E; lia ].
  rewrite (firstn_snoc vs k v E), map_app, run_app, IH by lia.
  cbn [map app run]. unfold step, smooth_step. cbn [last seen total].
  replace (S k <? n) with true by (symmetry; apply Nat.ltb_lt; lia).
  cbn [fst]. now rewrite fsum_snoc.
Qed.

Lemma smooth_nth (vs : list float) (i : nat) (v : float) :
  nth_error vs i = Some v ->
  at_index (smooth n update (map Some vs)) i =
  snd (step (run step smooth_init (map Some (firstn i vs))) (Some v)).
Proof.
  intros H. apply nth_error_at_index. unfold smooth.
  rewrite (scan_nth_error _ _ _ i (Some v)) by now apply map_nth_error.
  now rewrite firstn_map.
Qed.

(** Undefined before index [n-1]. *)
Lemma smooth_undefined (vs : list float) (i : nat) :
  i < length vs -> S i < n ->
  at_index (smooth n update (map Some vs)) i = None.
Proof.
  intros Hi Hn.
  destruct (nth_error vs i) as [v | ] eqn:E;
    [ | apply nth_error_None in E; lia ].
  rewrite (smooth_nth vs i v E), run_warmup by lia.
  unfold step, smooth_step. cbn [last seen total].
  now replace (S i <? n) with true by (symmetry; apply Nat.ltb_lt; lia).
Qed.

(** The simple average of the first [n] values at index [n-1]. *)
Lemma smooth_seed (vs : list float) (i : nat) :
  i < length vs -> S i = n ->
  at_index (smooth n update (map Some vs)) i = Some (mean (firstn n vs)).
Proof.
  intros Hi Hn.
  destruct (nth_error vs i) as [v | ] eqn:E;
    [ | apply nth_error_None in E; lia ].
  rewrite (smooth_nth vs i v E), run_warmup by lia.
  unfold step, smooth_step. cbn [last seen total].
  replace (S i <? n) with false by (symmetry; apply Nat.ltb_ge; lia).
  cbn [snd]. unfold mean. rewrite length_firstn, Nat.min_l by lia.
  now rewrite <- Hn, (firstn_snoc vs i v E), fsum_snoc.
Qed.

Lemma step_last (st : smooth_state) (v : float) :
  last (fst (step st (Some v))) = snd (step st (Some v)).
Proof.
  unfold step, smooth_step.
  destruct (last st); [ reflexivity | ].
  now destruct (S (seen st) <? n).
Qed.

Lemma step_update (st : smooth_state) (v e : float) :
  last st = Some e -> snd (step st (Some v)) = Some (update e v).
Proof. unfold step, smooth_step. now intros ->. Qed.

(** The state after index [i] remembers the value at index [i]. *)
Lemma run_last (vs : list float) (i : nat) (v : float) :
  nth_error vs i = Some v ->
  last (run step smooth_init (map Some (firstn (S i) vs))) =
  at_index (smooth n update (map Some vs)) i.
Proof.
  intros E. rewrite (firstn_snoc vs i v E), map_app, run_app.
  cbn [map app run]. fold step.
  now rewrite step_last, (smooth_nth vs i v E).
Qed.

(** Defined from index [n-1] on. *)
Lemma smooth_defined (vs : list float) (i : nat) :
  i < length vs -> n <= S i ->
  exists e, at_index (smooth n update (map Some vs)) i = Some e.
Proof.
  induction i as [ | j IH]; intros Hi Hn.
  - eexists. apply smooth_seed; lia.
  - destruct (Nat.eq_dec (S (S j)) n) as [Hs | Hs];
      [ eexists; apply smooth_seed; lia | ].
    destruct IH as (e & He); [ lia | lia | ].
    destruct (nth_error vs j) as [u | ] eqn:Ej;
      [ | apply nth_error_None in Ej; lia ].
    destruct (nth_error vs (S j)) as [v | ] eqn:Ei;
      [ | apply nth_error_None in Ei; lia ].
    exists (update e v).
    rewrite (smooth_nth vs (S j) v Ei). apply step_update.
    now rewrite (run_last vs j u Ej).
Qed.

(** From index [n] on, each value is the update of the value before. *)
Lemma smooth_recursion (vs : list float) (j : nat) (v : float) :
  nth_error vs (S j) = Some v -> n <= S j ->
  exists e,
    at_index (smooth n update (map Some vs)) j = Some e
    /\ at_index (smooth n update (map Some vs)) (S j) = Some (update e v).
Proof.
  intros Ei Hn.
  assert (Hi : S j < length vs) by (apply nth_error_Some; congruence).
  destruct (smooth_defined vs j) as (e & He); [ lia | lia | ].
  destruct (nth_error vs j) as [u | ] eqn:Ej;
    [ | apply nth_error_None in Ej; lia ].
  exists e. split; [ exact He | ].
  rewrite (smooth_nth vs (S j) v Ei). apply step_update.
  now rewrite (run_last vs j u Ej).
Qed.

(** Undefined inputs at the head are passed over. *)
Lemma smooth_skip (k : nat) (xs : list cell) :
  smooth n update (repeat None k ++ xs) =
  repeat None k ++ smooth n update xs.
Proof.
  unfold smooth. induction k as [ | k IH]; cbn; [ reflexivity | ].
  now rewrite IH.
Qed.

End SmoothFacts.

(** ** Where a column is defined *)

Lemma defined_from_map_some (vs : list float) : defined_from 0 (map Some vs).
Proof.
  intros i Hi. rewrite length_map in Hi.
  destruct (nth_error vs i) as [v | ] eqn:E;
    [ | apply nth_error_None in E; lia ].
  rewrite (nth_error_at_index _ i (Some v)) by now apply map_nth_error.
  split; [ lia | discriminate ].
Qed.

Lemma defined_from_tail (k : nat) (c : cell) (col : list cell) :
  defined_from k (c :: col) -> defined_from (pred k) col.
Proof.
  intros H i Hi. specialize (H (S i)). cbn in H.
  unfold at_index in *. cbn in H. rewrite H by lia. lia.
Qed.

(** Such a column is a run of undefined values followed by defined ones. *)
Lemma defined_from_split (col : list cell) (k : nat) :
  defined_from k col ->
  exists m ws, m = Nat.min k (length col)
               /\ col = repeat None m ++ map Some ws.
Proof.
  revert k. induction col as [ | c col IH]; intros k H.
  - exists 0, []. now rewrite Nat.min_0_r.
  - destruct (IH _ (defined_from_tail k c col H)) as (m & ws & Hm & E).
    pose proof (H 0) as H0. unfold at_index in H0. cbn in H0.
    destruct k as [ | k].
    + destruct c as [v | ];
        [ | exfalso; apply (proj2 (H0 (Nat.lt_0_succ _)) (Nat.le_0_l _));
            reflexivity ].
      cbn in Hm. subst m. exists 0, (v :: ws). cbn in *.
      split; [ reflexivity | congruence ].
    + destruct c as [v | ];
        [ assert (S k <= 0)
            by (apply (proj1 (H0 (Nat.lt_0_succ _))); discriminate); lia | ].
      exists (S m), ws. cbn in *.
      split; [ congruence | congruence ].
Qed.

Lemma defined_from_smooth (n : nat) (update : float -> float -> float)
    (k : nat) (col : list cell) :
  1 <= n -> defined_from k col ->
  defined_from (k + n - 1) (smooth n update col).
Proof.
  intros Hn H. destruct (defined_from_split col k H) as (m & ws & Hm & E).
  assert (L : length col = m + length ws)
    by (rewrite E at 1; now rewrite length_app, repeat_length, length_map).
  rewrite E, smooth_skip. intros i Hi.
  rewrite length_app, repeat_length in Hi. unfold smooth in Hi.
  rewrite scan_length, length_map in Hi.
  destruct (Nat.lt_ge_cases i m) as [Lt | Ge].
  - unfold at_index. rewrite app_nth1 by now rewrite repeat_length.
    rewrite nth_repeat. split; [ congruence | lia ].
  - replace (at_index (repeat None m ++ smooth n update (map Some ws)) i)
      with (at_index (smooth n update (map Some ws)) (i - m))
      by (unfold at_index; rewrite app_nth2, repeat_length;
          [ reflexivity | rewrite repeat_length; lia ]).
    assert (Hk : m = k) by lia. rewrite Hk in *. clear Hm Hk.
    destruct (Nat.le_gt_cases n (S (i - k))) as [D | U].
    + destruct (smooth_defined n update Hn ws (i - k)) as (e & ->); [ lia .. | ].
      split; [ lia | discriminate ].
    + rewrite smooth_undefined by lia. split; [ congruence | lia ].
Qed.

Lemma defined_from_sub (a b : nat) (xs ys : list cell) :
  length xs = length ys ->
  defined_from a xs -> defined_from b ys ->
  defined_from (Nat.max a b) (map2 cell_sub xs ys).
Proof.
  intros L Ha Hb i Hi. rewrite map2_length in Hi by exact L.
  rewrite map2_at_index by assumption.
  specialize (Ha i Hi). specialize (Hb i ltac:(lia)).
  destruct (at_index xs i), (at_index ys i); cbn;
    split; intros; try congruence; try lia.
  - assert (a <= i) by (apply Ha; discriminate).
    assert (b <= i) by (apply Hb; discriminate). lia.
  - assert (at_index_absurd : @None float <> None) by (apply Hb; lia).
    congruence.
  - assert (at_index_absurd : @None float <> None) by (apply Ha; lia).
    congruence.
  - assert (at_index_absurd : @None float <> None) by (apply Ha; lia).
    congruence.
Qed.

Lemma defined_from_before (k : nat) (col : list cell) (i : nat) :
  defined_from k col -> i < length col -> i < k -> at_index col i = None.
Proof.
  intros H Hi Lt. destruct (at_index col i) eqn:E; [ | reflexivity ].
  assert (k <= i) by (apply (H i Hi); congruence). lia.
Qed.

Lemma smooth_length (n : nat) (update : float -> float -> float)
    (xs : list cell) :
  length (smooth n update xs) = length xs.
Proof. apply scan_length. Qed.

(** ** The series of the indicators *)

Lemma ema_series_length (n : nat) (xs : list cell) :
  length (ema_series n xs) = length xs.
Proof. apply scan_length. Qed.

Lemma macd_series_length (slow fast sign : nat) (close : list float) :
  length (macd_series slow fast sign close) = length close.
Proof.
  unfold macd_series.
  now rewrite map2_length, ema_series_length, length_map
    by now rewrite !ema_series_length.
Qed.

Lemma macd_signal_series_length (slow fast sign : nat) (close : list float) :
  length (macd_signal_series slow fast sign close) = length close.
Proof.
  unfold macd_signal_series.
  now rewrite ema_series_length, macd_series_length.
Qed.

(** The MACD line of (12, 26) is defined from index 25 on. *)
Lemma macd_series_defined (close : list float) :
  defined_from 25 (macd_series 26 12 9 close).
Proof.
  unfold macd_series, ema_series.
  apply (defined_from_sub 11 25).
  - now rewrite !smooth_length.
  - apply (defined_from_smooth 12 _ 0); [ lia | apply defined_from_map_some ].
  - apply (defined_from_smooth 26 _ 0); [ lia | apply defined_from_map_some ].
Qed.

(** Its signal and its histogram are defined from index 33 on. *)
Lemma macd_signal_series_defined (close : list float) :
  defined_from 33 (macd_signal_series 26 12 9 close).
Proof.
  unfold macd_signal_series, ema_series.
  apply (defined_from_smooth 9 _ 25); [ lia | apply macd_series_defined ].
Qed.

Lemma macd_hist_series_defined (close : list float) :
  defined_from 33 (macd_hist_series 26 12 9 close).
Proof.
  unfold macd_hist_series.
  apply (defined_from_sub 25 33).
  - now rewrite macd_series_length, macd_signal_series_length.
  - apply macd_series_defined.
  - apply macd_signal_series_defined.
Qed.

(** After the first close, the RSI pass runs the two averages of Wilder
    side by side on the gains and on the losses. *)
Lemma rsi_scan_tail (n : nat) (p : float) (sg sl : smooth_state)
    (xs : list float) :
  scan (rsi_step n) (mkRsi (Some p) sg sl) xs =
  map2 rsi_of
    (scan (smooth_step n (wilder_update n)) sg
          (map Some (map gain (diff p xs))))
    (scan (smooth_step n (wilder_update n)) sl
          (map Some (map loss (diff p xs)))).
Proof.
  revert p sg sl. induction xs as [ | x xs IH]; intros p sg sl;
    [ reflexivity | ].
  cbn [scan diff map map2].
  change (rsi_step n (mkRsi (Some p) sg sl) x)
    with (mkRsi (Some x)
            (fst (smooth_step n (wilder_update n) sg (Some (gain (x - p)%float))))
            (fst (smooth_step n (wilder_update n) sl (Some (loss (x - p)%float)))),
          rsi_of
            (snd (smooth_step n (wilder_update n) sg (Some (gain (x - p)%float))))
            (snd (smooth_step n (wilder_update n) sl (Some (loss (x - p)%float))))).
  cbn [fst snd]. now rewrite IH.
Qed.

Lemma rsi_series_cons (n : nat) (c : float) (cs : list float) :
  rsi_series n (c :: cs) =
  None :: map2 rsi_of (wilder n (map gain (deltas (c :: cs))))
                      (wilder n (map loss (deltas (c :: cs)))).
Proof.
  unfold rsi_series, wilder, smooth, deltas. cbn [scan].
  change (rsi_step n rsi_init c)
    with (mkRsi (Some c) smooth_init smooth_init, @None float).
  cbn [fst snd]. now rewrite rsi_scan_tail.
Qed.

Lemma diff_length (p : float) (xs : list float) :
  length (diff p xs) = length xs.
Proof.
  revert p. induction xs as [ | x xs IH]; intros p; cbn; [ reflexivity | ].
  now rewrite IH.
Qed.

Lemma wilder_length (n : nat) (ds : list float) :
  length (wilder n ds) = length ds.
Proof. unfold wilder. now rewrite smooth_length, length_map. Qed.

(** The window of the rolling pass is not full before index [n-1]. *)
Lemma rolling_undefined (n : nat) (out : list float -> float)
    (xs buf : list float) (i : nat) :
  S (i + length buf) < n ->
  at_index (scan (window_step n out) buf xs) i = None.
Proof.
  unfold at_index.
  revert buf i. induction xs as [ | x xs IH]; intros buf i H;
    [ now destruct i | ].
  assert (L : length (firstn n (x :: buf)) = S (length buf))
    by (rewrite length_firstn; cbn [length]; lia).
  destruct i as [ | i]; cbn [scan nth window_step fst snd].
  - rewrite L. now replace (n <=? S (length buf)) with false
      by (symmetry; apply Nat.leb_gt; lia).
  - apply IH. rewrite L. lia.
Qed.

(** ** The rows of the engine *)

Lemma annotate_nth_error
    (c_rsi c_macd c_signal c_hist c_ema50 c_ema200 c_high c_low c_mid
       : list cell)
    (df : list candle) (j i : nat) :
  nth_error
    (annotate c_rsi c_macd c_signal c_hist c_ema50 c_ema200
              c_high c_low c_mid j df) i =
  option_map
    (fun c =>
       mkRow c (at_index c_rsi (j + i)) (at_index c_macd (j + i))
             (at_index c_signal (j + i)) (at_index c_hist (j + i))
             (at_index c_ema50 (j + i)) (at_index c_ema200 (j + i))
             (at_index c_high (j + i)) (at_index c_low (j + i))
             (at_index c_mid (j + i)))
    (nth_error df i).
Proof.
  revert j i. induction df as [ | c df IH]; intros j [ | i]; cbn;
    try reflexivity.
  - now rewrite Nat.add_0_r.
  - rewrite IH. now rewrite Nat.add_succ_r.
Qed.

(** With the library of the specification the body of the engine does not
    raise. *)
Lemma calculate_try_spec (df : list candle) :
  calculate_try spec_ta df =
  Ok (let close := map Close df in
      annotate (rsi_series 14 close) (macd_series 26 12 9 close)
               (macd_signal_series 26 12 9 close)
               (macd_hist_series 26 12 9 close)
               (ema_series 50 (map Some close))
               (ema_series 200 (map Some close))
               (bb_high_series 20 2%float close)
               (bb_low_series 20 2%float close)
               (bb_mid_series 20 2%float close) 0 df).
Proof. reflexivity. Qed.

(** Row [i] of the snapshot series holds candle [i] and the values of the
    nine series at index [i]. *)
Lemma snapshots_nth_error (df : list candle) (i : nat) :
  nth_error (snapshots df) i =
  option_map (fun c => snapshot_at (map Close df) c i) (nth_error df i).
Proof.
  unfold snapshots, calculate_technical_indicators.
  destruct df as [ | c rest]; [ now destruct i | ].
  rewrite calculate_try_spec. cbn zeta. now rewrite annotate_nth_error.
Qed.

Lemma snapshots_length (df : list candle) :
  length (snapshots df) = length df.
Proof.
  destruct (Nat.lt_trichotomy (length (snapshots df)) (length df))
    as [H | [H | H]]; [ exfalso | exact H | exfalso ].
  - pose proof (snapshots_nth_error df (length (snapshots df))) as E.
    rewrite (proj2 (nth_error_None _ _) (Nat.le_refl _)) in E.
    destruct (nth_error df (length (snapshots df))) eqn:N;
      [ discriminate | apply nth_error_None in N; lia ].
  - pose proof (snapshots_nth_error df (length df)) as E.
    rewrite (proj2 (nth_error_None df _) (Nat.le_refl _)) in E.
    apply nth_error_None in E. lia.
Qed.

Lemma snapshots_inv (df : list candle) (i : nat) (r : row) :
  nth_error (snapshots df) i = Some r ->
  exists c, nth_error df i = Some c /\ r = snapshot_at (map Close df) c i.
Proof.
  rewrite snapshots_nth_error.
  destruct (nth_error df i) as [c | ]; cbn; [ | discriminate ].
  intros H. injection H as <-. now exists c.
Qed.


(** ** The indicator engine *)

(** The law of [EMA(n)] on a series of closes. *)
Lemma ema_series_law (n : nat) (close : list float) (i : nat) (x : float) :
  1 <= n ->
  nth_error close i = Some x ->
  (S i < n -> at_index (ema_series n (map Some close)) i = None)
  /\ (S i = n ->
      at_index (ema_series n (map Some close)) i
      = Some (mean (firstn n close)))
  /\ (n <= i ->
      exists e,
        at_index (ema_series n (map Some close)) (i - 1) = Some e
        /\ at_index (ema_series n (map Some close)) i
           = Some (x * alpha n + e * (1 - alpha n))%float).
Proof.
  intros Hn E.
  assert (Hi : i < length close) by (apply nth_error_Some; congruence).
  unfold ema_series. repeat split.
  - intros H. now apply smooth_undefined.
  - intros H. now apply smooth_seed.
  - intros H. destruct i as [ | j]; [ lia | ].
    replace (S j - 1) with j by lia.
    destruct (smooth_recursion n (ema_update n) Hn close j x E) as (e & H1 & H2);
      [ lia | ].
    exists e. split; assumption.
Qed.

(** C4. In the snapshot series, EMA50 and EMA200 are undefined below
    index n-1, equal the simple average of the first n closes at index n-1,
    and from index n on follow
    EMA[i] = close[i] * alpha + EMA[i-1] * (1 - alpha), alpha = 2/(n+1). *)
Theorem ema_columns (df : list candle) (i : nat) (r : row) :
  nth_error (snapshots df) i = Some r ->
  ((i < 49 -> EMA50 r = None)
   /\ (i = 49 -> EMA50 r = Some (mean (firstn 50 (map Close df))))
   /\ (50 <= i ->
       exists p e,
         nth_error (snapshots df) (i - 1) = Some p
         /\ EMA50 p = Some e
         /\ EMA50 r
            = Some (Close (bar r) * alpha 50 + e * (1 - alpha 50))%float))
  /\ ((i < 199 -> EMA200 r = None)
      /\ (i = 199 -> EMA200 r = Some (mean (firstn 200 (map Close df))))
      /\ (200 <= i ->
          exists p e,
            nth_error (snapshots df) (i - 1) = Some p
            /\ EMA200 p = Some e
            /\ EMA200 r
               = Some (Close (bar r) * alpha 200 + e * (1 - alpha 200))%float))
  /\ alpha 50 = (2 / (50 + 1))%float
  /\ alpha 200 = (2 / (200 + 1))%float.
Proof.
  intros H. destruct (snapshots_inv df i r H) as (c & Ec & ->).
  assert (Ex : nth_error (map Close df) i = Some (Close c))
    by now apply map_nth_error.
  assert (Hi : i < length df) by (apply nth_error_Some; congruence).
  assert (P : 1 <= i ->
              exists c',
                nth_error (snapshots df) (i - 1)
                = Some (snapshot_at (map Close df) c' (i - 1))).
  { intros Hp. destruct (nth_error df (i - 1)) as [c' | ] eqn:E';
      [ | apply nth_error_None in E'; lia ].
    exists c'. now rewrite snapshots_nth_error, E'. }
  destruct (ema_series_law 50 _ i _ ltac:(lia) Ex) as (A1 & A2 & A3).
  destruct (ema_series_law 200 _ i _ ltac:(lia) Ex) as (B1 & B2 & B3).
  cbn [EMA50 EMA200 bar snapshot_at].
  repeat split; try reflexivity.
  - intros L. apply A1. lia.
  - intros L. apply A2. lia.
  - intros L. destruct (A3 L) as (e & H1 & H2).
    destruct (P ltac:(lia)) as (c' & Ep).
    exists (snapshot_at (map Close df) c' (i - 1)), e. now repeat split.
  - intros L. apply B1. lia.
  - intros L. apply B2. lia.
  - intros L. destruct (B3 L) as (e & H1 & H2).
    destruct (P ltac:(lia)) as (c' & Ep).
    exists (snapshot_at (map Close df) c' (i - 1)), e. now repeat split.
Qed.

Lemma ema_columns_witness :
  exists r p e,
    nth_error (snapshots (sample_series 60)) 50 = Some r
    /\ nth_error (snapshots (sample_series 60)) 49 = Some p
    /\ EMA50 p = Some e
    /\ EMA50 r = Some (Close (bar r) * alpha 50 + e * (1 - alpha 50))%float.
Proof.
  destruct (nth_error (snapshots (sample_series 60)) 50) as [r | ] eqn:E;
    [ | vm_compute in E; discriminate ].
  destruct (ema_columns (sample_series 60) 50 r E) as ((_ & _ & H) & _).
  destruct (H (Nat.le_refl 50)) as (p & e & Hp & He & Hr).
  exists r, p, e. repeat split; assumption.
Defined.

(** The law of the averages of Wilder on a series of deltas: the simple
    average of the first [n] values, then
    avg[j] = (avg[j-1] * (n-1) + d[j]) / n. *)
Lemma wilder_law (n : nat) (ds : list float) (j : nat) (d : float) :
  1 <= n ->
  nth_error ds j = Some d ->
  (S j < n -> at_index (wilder n ds) j = None)
  /\ (S j = n -> at_index (wilder n ds) j = Some (mean (firstn n ds)))
  /\ (n <= j ->
      exists e,
        at_index (wilder n ds) (j - 1) = Some e
        /\ at_index (wilder n ds) j
           = Some ((e * of_nat (n - 1) + d) / of_nat n)%float).
Proof.
  intros Hn E.
  assert (Hj : j < length ds) by (apply nth_error_Some; congruence).
  unfold wilder. repeat split.
  - intros H. now apply smooth_undefined.
  - intros H. now apply smooth_seed.
  - intros H. destruct j as [ | k]; [ lia | ].
    replace (S k - 1) with k by lia.
    destruct (smooth_recursion n (wilder_update n) Hn ds k d E)
      as (e & H1 & H2); [ lia | ].
    exists e. split; assumption.
Qed.

Lemma rsi_series_at (close : list float) (i : nat) :
  i < length close ->
  (i < 14 -> at_index (rsi_series 14 close) i = None)
  /\ (14 <= i ->
      exists g l,
        at_index (wilder 14 (map gain (deltas close))) (i - 1) = Some g
        /\ at_index (wilder 14 (map loss (deltas close))) (i - 1) = Some l
        /\ at_index (rsi_series 14 close) i
           = Some (100 - 100 / (1 + g / l))%float).
Proof.
  destruct close as [ | c cs]; [ cbn; lia | ]. intros Hi.
  rewrite rsi_series_cons.
  set (wg := wilder 14 (map gain (deltas (c :: cs)))).
  set (wl := wilder 14 (map loss (deltas (c :: cs)))).
  assert (Lg : length wg = length cs)
    by (unfold wg; cbn [deltas]; now rewrite wilder_length, length_map, diff_length).
  assert (Ll : length wl = length cs)
    by (unfold wl; cbn [deltas]; now rewrite wilder_length, length_map, diff_length).
  destruct i as [ | j]; [ split; [ reflexivity | lia ] | ].
  cbn [length] in Hi.
  change (at_index (None :: map2 rsi_of wg wl) (S j))
    with (at_index (map2 rsi_of wg wl) j).
  rewrite map2_at_index by lia.
  replace (S j - 1) with j by lia.
  split; intros H.
  - unfold wg, wilder. rewrite smooth_undefined;
      [ reflexivity | lia
      | rewrite length_map; cbn [deltas]; rewrite diff_length; lia | lia ].
  - destruct (smooth_defined 14 (wilder_update 14) ltac:(lia)
                (map gain (deltas (c :: cs))) j) as (g & Hg);
      [ rewrite length_map; cbn [deltas]; rewrite diff_length; lia | lia | ].
    destruct (smooth_defined 14 (wilder_update 14) ltac:(lia)
                (map loss (deltas (c :: cs))) j) as (l & Hl);
      [ rewrite length_map; cbn [deltas]; rewrite diff_length; lia | lia | ].
    exists g, l. unfold wg, wl, wilder. rewrite Hg, Hl. now repeat split.
Qed.

(** The delta at index [j] is the close after minus the close before. *)
Lemma diff_nth_error (xs : list float) (p : float) (j : nat) :
  nth_error (diff p xs) j =
  option_map (fun x => (x - nth j (p :: xs) 0)%float) (nth_error xs j).
Proof.
  revert p j. induction xs as [ | x xs IH]; intros p [ | j]; cbn;
    try reflexivity.
  apply IH.
Qed.

Lemma deltas_nth_error (close : list float) (j : nat) :
  S j < length close ->
  nth_error (deltas close) j =
  Some (nth (S j) close 0 - nth j close 0)%float.
Proof.
  destruct close as [ | c cs]; cbn [length deltas]; [ lia | ]. intros H.
  rewrite diff_nth_error.
  destruct (nth_error cs j) as [x | ] eqn:E;
    [ | apply nth_error_None in E; lia ].
  cbn. now rewrite (nth_error_nth cs j 0%float E).
Qed.

(** A list whose element [j] is [h (j+1)] starts with [h 1, ..., h n]. *)
Lemma firstn_tabulate (l : list float) (h : nat -> float) (n : nat) :
  (forall j, j < n -> nth_error l j = Some (h (S j))) ->
  firstn n l = map h (seq 1 n).
Proof.
  induction n as [ | n IH]; intros H; [ reflexivity | ].
  rewrite (firstn_snoc l n (h (S n))) by (apply H; lia).
  rewrite IH by (intros j Hj; apply H; lia).
  now rewrite seq_S, map_app.
Qed.

(** The average of Wilder at candle index [k], zero where it is undefined. *)
Lemma wilder_sequence (ds : list float) (h : nat -> float) (i : nat) :
  14 <= i ->
  i <= length ds ->
  (forall j, j < length ds -> nth_error ds j = Some (h (S j))) ->
  exists avg : nat -> float,
    avg 14 = (fold_left PrimFloat.add (map h (seq 1 14)) 0 / 14)%float
    /\ (forall k, 14 < k <= i ->
          avg k = ((avg (k - 1)%nat * 13 + h k) / 14)%float)
    /\ at_index (wilder 14 ds) (i - 1) = Some (avg i).
Proof.
  intros Hi Hl Hd.
  exists (fun k => match at_index (wilder 14 ds) (k - 1) with
                   | Some v => v
                   | None => 0%float
                   end).
  assert (D : forall k, 14 <= k <= i ->
                exists v, at_index (wilder 14 ds) (k - 1) = Some v).
  { intros k Hk. unfold wilder.
    apply (smooth_defined 14 (wilder_update 14)); lia. }
  repeat split.
  - cbn [Nat.sub].
    destruct (wilder_law 14 ds 13 (h 14)) as (_ & Seed & _);
      [ lia | apply Hd; lia | ].
    rewrite (Seed eq_refl). unfold mean, fsum.
    rewrite (firstn_tabulate ds h 14) by (intros j Hj; apply Hd; lia).
    rewrite length_map, length_seq. reflexivity.
  - intros k Hk.
    destruct (wilder_law 14 ds (k - 1) (h k)) as (_ & _ & Rec);
      [ lia | replace k with (S (k - 1)) at 2 by lia; apply Hd; lia | ].
    destruct (Rec ltac:(lia)) as (e & He & Hk').
    rewrite Hk', He. reflexivity.
  - destruct (D i ltac:(lia)) as (v & ->). reflexivity.
Qed.

(** C5. In the snapshot series RSI is undefined below index 14, and from
    index 14 on it is 100 - 100/(1 + RS), RS = avgGain/avgLoss.  The two
    averages are those of Wilder over 14 periods: with the delta of candle
    k its close minus the close before, the gain the delta where it is
    positive and zero elsewhere, the loss its magnitude where it is
    negative and zero elsewhere, each average is at index 14 the simple
    average of the first 14 values, and after it
    avg[k] = (avg[k-1] * 13 + value[k]) / 14. *)
Theorem rsi_column (df : list candle) (i : nat) (r : row) :
  nth_error (snapshots df) i = Some r ->
  (i < 14 -> RSI r = None)
  /\ (14 <= i ->
      let close := fun k => nth k (map Close df) 0%float in
      let delta := fun k => (close k - close (k - 1)%nat)%float in
      let up := fun k =>
        if (0 <? delta k)%float then delta k else 0%float in
      let down := fun k =>
        if (delta k <? 0)%float then (- delta k)%float else 0%float in
      exists avg_gain avg_loss : nat -> float,
        avg_gain 14
        = (fold_left PrimFloat.add (map up (seq 1 14)) 0 / 14)%float
        /\ avg_loss 14
           = (fold_left PrimFloat.add (map down (seq 1 14)) 0 / 14)%float
        /\ (forall k, 14 < k <= i ->
              avg_gain k = ((avg_gain (k - 1)%nat * 13 + up k) / 14)%float
              /\ avg_loss k = ((avg_loss (k - 1)%nat * 13 + down k) / 14)%float)
        /\ RSI r
           = Some (100 - 100 / (1 + avg_gain i / avg_loss i))%float).
Proof.
  intros H. destruct (snapshots_inv df i r H) as (c & Ec & ->).
  assert (Hi : i < length (map Close df))
    by (rewrite length_map; apply nth_error_Some; congruence).
  cbn [RSI snapshot_at].
  destruct (rsi_series_at (map Close df) i Hi) as (Before & After).
  split; [ exact Before | ]. intros Hle. cbn zeta.
  set (close := fun k => nth k (map Close df) 0%float).
  set (delta := fun k => (close k - close (k - 1)%nat)%float).
  set (up := fun k => if (0 <? delta k)%float then delta k else 0%float).
  set (down := fun k =>
                 if (delta k <? 0)%float then (- delta k)%float else 0%float).
  assert (Ld : length (deltas (map Close df)) = length (map Close df) - 1).
  { destruct (map Close df) as [ | x xs]; [ reflexivity | ].
    cbn [deltas length]. rewrite diff_length. lia. }
  assert (Nd : forall j, j < length (deltas (map Close df)) ->
                 nth_error (deltas (map Close df)) j = Some (delta (S j))).
  { intros j Hj. rewrite deltas_nth_error by lia.
    unfold delta, close. now replace (S j - 1) with j by lia. }
  destruct (wilder_sequence (map gain (deltas (map Close df))) up i)
    as (G & G14 & Grec & Gi);
    [ lia | rewrite length_map; lia | | ].
  { intros j Hj. rewrite length_map in Hj.
    rewrite nth_error_map, (Nd j Hj). reflexivity. }
  destruct (wilder_sequence (map loss (deltas (map Close df))) down i)
    as (L & L14 & Lrec & Li);
    [ lia | rewrite length_map; lia | | ].
  { intros j Hj. rewrite length_map in Hj.
    rewrite nth_error_map, (Nd j Hj). reflexivity. }
  exists G, L. split; [ exact G14 | ]. split; [ exact L14 | ].
  split; [ intros k Hk; split; [ now apply Grec | now apply Lrec ] | ].
  destruct (After Hle) as (g & l & Hg & Hl & ->).
  rewrite Gi in Hg. rewrite Li in Hl.
  injection Hg as <-. injection Hl as <-. reflexivity.
Qed.

Lemma rsi_column_witness :
  exists r,
    nth_error (snapshots (sample_series 20)) 14 = Some r
    /\ exists avg_gain avg_loss : nat -> float,
        avg_gain 14
        = (fold_left PrimFloat.add
             (map (fun k =>
                     let d := (nth k (map Close (sample_series 20)) 0
                               - nth (k - 1)%nat (map Close (sample_series 20)) 0)
                              %float in
                     if (0 <? d)%float then d else 0%float)
                  (seq 1 14)) 0 / 14)%float
        /\ avg_loss 14
           = (fold_left PrimFloat.add
                (map (fun k =>
                        let d := (nth k (map Close (sample_series 20)) 0
                                  - nth (k - 1)%nat (map Close (sample_series 20)) 0)
                                 %float in
                        if (d <? 0)%float then (- d)%float else 0%float)
                     (seq 1 14)) 0 / 14)%float
        /\ RSI r = Some (100 - 100 / (1 + avg_gain 14%nat / avg_loss 14%nat))%float.
Proof.
  destruct (nth_error (snapshots (sample_series 20)) 14) as [r | ] eqn:E;
    [ | vm_compute in E; discriminate ].
  destruct (rsi_column (sample_series 20) 14 r E) as (_ & H).
  destruct (H (Nat.le_refl 14)) as (G & L & HG & HL & _ & Hr).
  exists r. split; [ reflexivity | ]. exists G, L.
  split; [ exact HG | ]. split; [ exact HL | exact Hr ].
Defined.



(** C7, as stated, fails: for the empty series the engine returns [None],
    not an empty snapshot list. *)
Lemma empty_series_counterexample :
  calculate_technical_indicators spec_ta (Some []) = None
  /\ calculate_technical_indicators spec_ta (Some []) <> Some [].
Proof. split; [ reflexivity | discriminate ]. Qed.

(** C7, amended. For a missing or empty series the engine returns [None],
    whatever the indicator library does, and a library call that raises
    makes it return [None] too: it does not raise.  For a non-empty series
    it returns one row per candle, in which every value below its warm-up
    index is undefined.  On the empty series, and on what the engine
    returns for it, the classifier returns NO_SIGNAL with five undefined
    values. *)
Theorem engine_short_series (ta : TaLib) :
  calculate_technical_indicators ta None = None
  /\ calculate_technical_indicators ta (Some []) = None
  /\ (forall c rest,
         calculate_try ta (c :: rest) = Raise ->
         calculate_technical_indicators ta (Some (c :: rest)) = None)
  /\ (forall c rest,
         exists rows,
           calculate_technical_indicators spec_ta (Some (c :: rest))
           = Some rows
           /\ length rows = S (length rest)
           /\ forall i r,
               nth_error rows i = Some r ->
               (i < 14 -> RSI r = None)
               /\ (i < 25 -> MACD_line r = None)
               /\ (i < 33 -> MACD_signal r = None /\ MACD_hist r = None)
               /\ (i < 49 -> EMA50 r = None)
               /\ (i < 199 -> EMA200 r = None)
               /\ (i < 19 ->
                   BB_high r = None /\ BB_low r = None /\ BB_mid r = None))
  /\ check_signals (Some []) = (NO_SIGNAL, [None; None; None; None; None])
  /\ check_signals (calculate_technical_indicators ta (Some []))
     = (NO_SIGNAL, [None; None; None; None; None]).
Proof.
  split; [ reflexivity | ]. split; [ reflexivity | ].
  split; [ intros c rest H; cbn; now rewrite H | ].
  split; [ | split; reflexivity ].
  intros c rest. exists (snapshots (c :: rest)).
  split; [ reflexivity | ].
  split; [ apply (snapshots_length (c :: rest)) | ].
  intros i r H.
  destruct (snapshots_inv _ i r H) as (k & Ek & ->).
  assert (Hi : i < length (c :: rest)) by (apply nth_error_Some; congruence).
  set (close := map Close (c :: rest)).
  assert (Lc : length close = length (c :: rest)) by apply length_map.
  cbn [RSI MACD_line MACD_signal MACD_hist EMA50 EMA200 BB_high BB_low BB_mid
         snapshot_at].
  split; [ intros Lt; apply rsi_series_at; [ lia | exact Lt ] | ].
  split.
  { intros Lt.
    apply (defined_from_before 25); [ apply macd_series_defined | | exact Lt ].
    now rewrite macd_series_length, Lc. }
  split.
  { intros Lt. split.
    - apply (defined_from_before 33);
        [ apply macd_signal_series_defined | | exact Lt ].
      now rewrite macd_signal_series_length, Lc.
    - apply (defined_from_before 33);
        [ apply macd_hist_series_defined | | exact Lt ].
      unfold macd_hist_series.
      now rewrite map2_length, macd_series_length, Lc
        by now rewrite macd_series_length, macd_signal_series_length. }
  split.
  { intros Lt. apply smooth_undefined; [ lia | now rewrite Lc | lia ]. }
  split.
  { intros Lt. apply smooth_undefined; [ lia | now rewrite Lc | lia ]. }
  intros Lt.
  repeat split; apply rolling_undefined; cbn [length]; lia.
Qed.

(** Each series of the specification is without look-ahead. *)
Lemma causal_ema_closes (n : nat) :
  causal (fun close => ema_series n (map Some close)).
Proof.
  apply (causal_compose (map Some) (ema_series n));
    [ apply causal_map | apply causal_scan ].
Qed.

Lemma causal_macd_series (slow fast sign : nat) :
  causal (macd_series slow fast sign).
Proof. apply causal_map2; apply causal_ema_closes. Qed.

Lemma causal_macd_signal_series (slow fast sign : nat) :
  causal (macd_signal_series slow fast sign).
Proof.
  apply (causal_compose (macd_series slow fast sign) (ema_series sign));
    [ apply causal_macd_series | apply causal_scan ].
Qed.

Lemma causal_macd_hist_series (slow fast sign : nat) :
  causal (macd_hist_series slow fast sign).
Proof.
  apply causal_map2;
    [ apply causal_macd_series | apply causal_macd_signal_series ].
Qed.

Lemma snapshot_at_app (close more : list float) (c : candle) (i : nat) :
  i < length close ->
  snapshot_at (close ++ more) c i = snapshot_at close c i.
Proof.
  intros Hi. unfold snapshot_at.
  rewrite (causal_at_index (rsi_series 14) close more i)
    by (apply causal_scan || exact Hi).
  rewrite (causal_at_index (macd_series 26 12 9) close more i)
    by (apply causal_macd_series || exact Hi).
  rewrite (causal_at_index (macd_signal_series 26 12 9) close more i)
    by (apply causal_macd_signal_series || exact Hi).
  rewrite (causal_at_index (macd_hist_series 26 12 9) close more i)
    by (apply causal_macd_hist_series || exact Hi).
  rewrite (causal_at_index (fun l => ema_series 50 (map Some l)) close more i)
    by (apply causal_ema_closes || exact Hi).
  rewrite (causal_at_index (fun l => ema_series 200 (map Some l)) close more i)
    by (apply causal_ema_closes || exact Hi).
  rewrite (causal_at_index (bb_high_series 20 2%float) close more i)
    by (apply causal_scan || exact Hi).
  rewrite (causal_at_index (bb_low_series 20 2%float) close more i)
    by (apply causal_scan || exact Hi).
  rewrite (causal_at_index (bb_mid_series 20 2%float) close more i)
    by (apply causal_scan || exact Hi).
  reflexivity.
Qed.

(** C8. Appending a candle leaves every earlier snapshot as it was: row [i]
    of the snapshot series of [s ++ [c]] is row [i] of the snapshot series
    of [s], for every index [i] of [s]. *)
Theorem snapshots_causal (s : list candle) (c : candle) (i : nat) :
  i < length s ->
  nth_error (snapshots (s ++ [c])) i = nth_error (snapshots s) i.
Proof.
  intros Hi. rewrite !snapshots_nth_error, nth_error_app1 by exact Hi.
  destruct (nth_error s i) as [k | ]; [ cbn | reflexivity ].
  now rewrite map_app, snapshot_at_app by now rewrite length_map.
Qed.

Lemma snapshots_causal_witness :
  nth_error (snapshots (sample_series 40 ++ [sample_bar 250%float])) 39
  = nth_error (snapshots (sample_series 40)) 39.
Proof.
  apply (snapshots_causal (sample_series 40) (sample_bar 250%float) 39).
  vm_compute. lia.
Defined.

(** * Further properties of the code *)

(** ** check_signals *)

(** IEEE's [<] excludes the converse [<=]. *)
Lemma ltb_not_leb (x y : float) :
  (x <? y)%float = true -> (y <=? x)%float = false.
Proof.
  rewrite ltb_spec, leb_spec. unfold SFltb, SFleb.
  destruct (SFcompare (Prim2SF x) (Prim2SF y)) as [[ | | ] | ] eqn:E;
    try discriminate.
  intros _. now rewrite (SFcompare_Lt_swap _ _ E).
Qed.

Lemma window_of_rows (rows : list row) :
  2 <= length rows ->
  exists latest previous,
    iloc_last rows = Some latest /\ iloc_prev rows = Some previous.
Proof.
  intros L. destruct (two_rows_inv rows L) as (pre & p & l & ->).
  exists l, p. split; [ apply iloc_last_snoc2 | apply iloc_prev_snoc2 ].
Qed.

(** X1. A BUY or a SELL is returned only on a frame of at least two rows
    whose nine required values are all present and numbers; the tuple then
    carries the close and the indicator values of the latest row. *)
Theorem signal_needs_defined_window (df : option (list row)) :
  fst (check_signals df) <> NO_SIGNAL ->
  exists rows latest previous,
    df = Some rows
    /\ 2 <= length rows
    /\ iloc_last rows = Some latest
    /\ iloc_prev rows = Some previous
    /\ required_defined latest previous = true
    /\ snd (check_signals df) = carried latest.
Proof.
  intros H. destruct df as [rows | ]; [ | now contradiction H ].
  destruct (Nat.lt_ge_cases (length rows) 2) as [Lt | Ge].
  - contradiction H. unfold check_signals.
    apply Nat.ltb_lt in Lt. now rewrite Lt.
  - destruct (window_of_rows rows Ge) as (latest & previous & Hl & Hp).
    exists rows, latest, previous.
    rewrite (check_signals_window rows latest previous Hl Hp) in *.
    unfold classify_window in *. cbn [fst snd] in *.
    destruct (required_defined latest previous);
      [ now repeat split | now contradiction H ].
Qed.

Lemma signal_needs_defined_window_witness :
  exists rows latest previous,
    Some [sample_previous; sample_latest] = Some rows
    /\ 2 <= length rows
    /\ iloc_last rows = Some latest
    /\ iloc_prev rows = Some previous
    /\ required_defined latest previous = true
    /\ snd (check_signals (Some [sample_previous; sample_latest]))
       = carried latest.
Proof.
  apply (signal_needs_defined_window (Some [sample_previous; sample_latest])).
  vm_compute. discriminate.
Defined.

Lemma agreeing_signals (rows1 rows2 : list row) (a b c : row) :
  iloc_prev rows1 = Some a ->
  iloc_last rows1 = Some b ->
  iloc_prev rows2 = Some b ->
  iloc_last rows2 = Some c ->
  fst (check_signals (Some rows1)) = fst (check_signals (Some rows2)) ->
  fst (check_signals (Some rows1)) = NO_SIGNAL.
Proof.
  intros Pa Lb Pb Lc.
  rewrite (check_signals_window rows1 b a Lb Pa).
  rewrite (check_signals_window rows2 c b Lc Pb).
  unfold classify_window. cbn [fst].
  destruct (required_defined b a); [ | reflexivity ].
  destruct (required_defined c b);
    [ | now destruct (buy_rule b a), (sell_rule b a) ].
  destruct (buy_rule b a) eqn:B1.
  - destruct (buy_rule c b) eqn:B2;
      [ | now destruct (sell_rule c b) ].
    exfalso. unfold buy_rule, macd_bullish_cross, gt_c in B1, B2.
    split_ands.
    destruct (MACD_line b) as [x | ], (MACD_signal b) as [y | ];
      cbn in *; try discriminate.
    rewrite (ltb_not_leb y x) in * by assumption. discriminate.
  - destruct (sell_rule b a) eqn:S1; [ | reflexivity ].
    destruct (buy_rule c b); [ discriminate | ].
    destruct (sell_rule c b) eqn:S2; [ | discriminate ].
    exfalso. unfold sell_rule, macd_bearish_cross, ge_c in S1, S2.
    split_ands.
    destruct (MACD_line b) as [x | ], (MACD_signal b) as [y | ];
      cbn in *; try discriminate.
    rewrite (ltb_not_leb x y) in * by assumption. discriminate.
Qed.

(** X2. A BUY or a SELL is not repeated on the next window: when the
    latest row of one evaluation is the previous row of the next, a BUY is
    not followed by a BUY and a SELL is not followed by a SELL. *)
Theorem no_signal_twice (rows1 rows2 : list row) (a b c : row) :
  iloc_prev rows1 = Some a ->
  iloc_last rows1 = Some b ->
  iloc_prev rows2 = Some b ->
  iloc_last rows2 = Some c ->
  fst (check_signals (Some rows1)) <> NO_SIGNAL ->
  fst (check_signals (Some rows2)) <> fst (check_signals (Some rows1)).
Proof.
  intros Pa Lb Pb Lc H E. apply H.
  apply (agreeing_signals rows1 rows2 a b c); congruence.
Qed.

Lemma no_signal_twice_witness :
  fst (check_signals (Some [sample_latest; sample_latest])) <>
  fst (check_signals (Some [sample_previous; sample_latest])).
Proof.
  apply (no_signal_twice [sample_previous; sample_latest]
           [sample_latest; sample_latest]
           sample_previous sample_latest sample_latest);
    try reflexivity.
  vm_compute. discriminate.
Defined.

(** X3. On every frame of at least two rows, whatever the signal, the
    tuple carries the close of the latest row as the price and its RSI,
    MACD line, MACD signal, EMA50 and EMA200 as they are. *)
Theorem check_signals_carries_latest (rows : list row) (latest : row) :
  2 <= length rows ->
  iloc_last rows = Some latest ->
  snd (check_signals (Some rows)) =
  [Some (Close (bar latest)); RSI latest; MACD_line latest;
   MACD_signal latest; EMA50 latest; EMA200 latest].
Proof.
  intros L Hl.
  destruct (window_of_rows rows L) as (l & p & Hl' & Hp).
  assert (l = latest) by congruence. subst l.
  now rewrite (check_signals_window rows latest p Hl Hp).
Qed.

Lemma check_signals_carries_latest_witness :
  snd (check_signals (Some [sample_previous; sample_latest])) =
  [Some 100%float; Some 25%float; Some 2%float; Some 1%float;
   Some 3%float; Some 2%float].
Proof.
  apply (check_signals_carries_latest [sample_previous; sample_latest]
           sample_latest); [ cbn; lia | reflexivity ].
Defined.

Lemma classify_window_views (l1 p1 l2 p2 : row) :
  latest_view l1 = latest_view l2 ->
  previous_view p1 = previous_view p2 ->
  classify_window l1 p1 = classify_window l2 p2.
Proof.
  unfold latest_view, previous_view. intros Hl Hp.
  injection Hl as E1 E2 E3 E4 E5 E6. injection Hp as F1 F2 F3 F4.
  unfold classify_window, required_defined, buy_rule, sell_rule,
    macd_bullish_cross, ema_bullish_cross, macd_bearish_cross,
    ema_bearish_cross, carried.
  now rewrite E1, E2, E3, E4, E5, E6, F1, F2, F3, F4.
Qed.

(** X4. The result depends on the close and the five indicator values of
    the latest row and on the four MACD and EMA values of the previous row
    only: neither the Bollinger bands, the histogram, the other candle
    fields nor the RSI or close of the previous row are read. *)
Theorem check_signals_reads (rows1 rows2 : list row) (l1 p1 l2 p2 : row) :
  iloc_last rows1 = Some l1 ->
  iloc_prev rows1 = Some p1 ->
  iloc_last rows2 = Some l2 ->
  iloc_prev rows2 = Some p2 ->
  latest_view l1 = latest_view l2 ->
  previous_view p1 = previous_view p2 ->
  check_signals (Some rows1) = check_signals (Some rows2).
Proof.
  intros Hl1 Hp1 Hl2 Hp2 Vl Vp.
  rewrite (check_signals_window rows1 l1 p1 Hl1 Hp1).
  rewrite (check_signals_window rows2 l2 p2 Hl2 Hp2).
  now apply classify_window_views.
Qed.

Lemma check_signals_reads_witness :
  check_signals (Some [sample_previous; sample_latest]) =
  check_signals
    (Some [mkRow (sample_bar 7%float) None (Some 0%float) (Some 1%float)
                 None (Some 1%float) (Some 2%float) None None None;
           mkRow (mkCandle 9 1%float 2%float 3%float 100%float 4%float)
                 (Some 25%float) (Some 2%float) (Some 1%float) None
                 (Some 3%float) (Some 2%float) None None None]).
Proof.
  apply (check_signals_reads _ _ sample_latest sample_previous
           (mkRow (mkCandle 9 1%float 2%float 3%float 100%float 4%float)
                  (Some 25%float) (Some 2%float) (Some 1%float) None
                  (Some 3%float) (Some 2%float) None None None)
           (mkRow (sample_bar 7%float) None (Some 0%float) (Some 1%float)
                  None (Some 1%float) (Some 2%float) None None None));
    reflexivity.
Defined.

(** ** calculate_technical_indicators with any library *)

Lemma annotate_bar
    (c_rsi c_macd c_signal c_hist c_ema50 c_ema200 c_high c_low c_mid
       : list cell)
    (df : list candle) (j : nat) :
  map bar
    (annotate c_rsi c_macd c_signal c_hist c_ema50 c_ema200
              c_high c_low c_mid j df) = df.
Proof.
  revert j. induction df as [ | c df IH]; intros j; cbn;
    [ reflexivity | now rewrite IH ].
Qed.

Lemma calculate_try_bar (ta : TaLib) (df : list candle) (rows : list row) :
  calculate_try ta df = Ok rows -> map bar rows = df.
Proof.
  unfold calculate_try.
  destruct (rsi ta 14 _); [ | discriminate ].
  destruct (macd ta 26 12 9 _); [ | discriminate ].
  destruct (macd_signal ta 26 12 9 _); [ | discriminate ].
  destruct (macd_diff ta 26 12 9 _); [ | discriminate ].
  destruct (ema_indicator ta 50 _); [ | discriminate ].
  destruct (ema_indicator ta 200 _); [ | discriminate ].
  destruct (bollinger_hband ta 20 2%float _); [ | discriminate ].
  destruct (bollinger_lband ta 20 2%float _); [ | discriminate ].
  destruct (bollinger_mavg ta 20 2%float _); [ | discriminate ].
  cbn. intros H. injection H as <-. apply annotate_bar.
Qed.

Lemma engine_some_inv (ta : TaLib) (df : list candle) (rows : list row) :
  calculate_technical_indicators ta (Some df) = Some rows ->
  df <> [] /\ calculate_try ta df = Ok rows.
Proof.
  unfold calculate_technical_indicators.
  destruct df as [ | c rest]; [ discriminate | ].
  destruct (calculate_try ta (c :: rest)); [ | discriminate ].
  intros H. injection H as ->. split; [ discriminate | reflexivity ].
Qed.

(** X5. Whatever the indicator library does, a frame the engine returns
    has one row per candle, in the same order, each with its candle
    unchanged; and the input was not empty. *)
Theorem engine_keeps_candles (ta : TaLib) (df : list candle)
    (rows : list row) :
  calculate_technical_indicators ta (Some df) = Some rows ->
  map bar rows = df /\ length rows = length df /\ df <> [].
Proof.
  intros H. destruct (engine_some_inv ta df rows H) as (N & E).
  pose proof (calculate_try_bar ta df rows E) as B.
  repeat split; [ exact B | | exact N ].
  now rewrite <- B, length_map.
Qed.

Lemma engine_keeps_candles_witness :
  map bar (snapshots (sample_series 3)) = sample_series 3
  /\ length (snapshots (sample_series 3)) = length (sample_series 3)
  /\ sample_series 3 <> [].
Proof.
  apply (engine_keeps_candles spec_ta (sample_series 3)). reflexivity.
Defined.

(** X6. The engine returns [None] for a frame exactly when the frame is
    empty or one of its nine library calls raises. *)
Theorem engine_none_iff (ta : TaLib) (df : list candle) :
  calculate_technical_indicators ta (Some df) = None <->
  df = []
  \/ rsi ta 14 (map Close df) = Raise
  \/ macd ta 26 12 9 (map Close df) = Raise
  \/ macd_signal ta 26 12 9 (map Close df) = Raise
  \/ macd_diff ta 26 12 9 (map Close df) = Raise
  \/ ema_indicator ta 50 (map Close df) = Raise
  \/ ema_indicator ta 200 (map Close df) = Raise
  \/ bollinger_hband ta 20 2%float (map Close df) = Raise
  \/ bollinger_lband ta 20 2%float (map Close df) = Raise
  \/ bollinger_mavg ta 20 2%float (map Close df) = Raise.
Proof.
  unfold calculate_technical_indicators.
  destruct df as [ | c rest]; [ split; [ now left | reflexivity ] | ].
  unfold calculate_try.
  destruct (rsi ta 14 _); [ | cbn; tauto ].
  destruct (macd ta 26 12 9 _); [ | cbn; tauto ].
  destruct (macd_signal ta 26 12 9 _); [ | cbn; tauto ].
  destruct (macd_diff ta 26 12 9 _); [ | cbn; tauto ].
  destruct (ema_indicator ta 50 _); [ | cbn; tauto ].
  destruct (ema_indicator ta 200 _); [ | cbn; tauto ].
  destruct (bollinger_hband ta 20 2%float _); [ | cbn; tauto ].
  destruct (bollinger_lband ta 20 2%float _); [ | cbn; tauto ].
  destruct (bollinger_mavg ta 20 2%float _); [ | cbn; tauto ].
  cbn. split; [ discriminate | ].
  intros H. repeat (destruct H as [H | H]; try discriminate).
Qed.

(** The library of the specification has no look-ahead. *)
Lemma spec_ta_causal : causal_library spec_ta.
Proof.
  unfold causal_library, without_lookahead. cbn.
  repeat split; eexists; (split; [ | intros close; reflexivity ]).
  - apply causal_scan.
  - apply causal_macd_series.
  - apply causal_macd_signal_series.
  - apply causal_macd_hist_series.
  - apply causal_ema_closes.
  - apply causal_ema_closes.
  - apply causal_scan.
  - apply causal_scan.
  - apply causal_scan.
Qed.

(** X7. The engine adds no look-ahead of its own: when none of the nine
    library calls raises or looks ahead, appending a candle leaves every
    earlier row of the returned frame as it was. *)
Theorem engine_causal (ta : TaLib) (s : list candle) (c : candle) (i : nat) :
  causal_library ta ->
  i < length s ->
  nth_error (frame ta (s ++ [c])) i = nth_error (frame ta s) i.
Proof.
  intros (H1 & H2 & H3 & H4 & H5 & H6 & H7 & H8 & H9) Hi.
  destruct H1 as (g1 & C1 & E1), H2 as (g2 & C2 & E2), H3 as (g3 & C3 & E3),
    H4 as (g4 & C4 & E4), H5 as (g5 & C5 & E5), H6 as (g6 & C6 & E6),
    H7 as (g7 & C7 & E7), H8 as (g8 & C8 & E8), H9 as (g9 & C9 & E9).
  assert (F : forall df,
             frame ta df =
             annotate (g1 (map Close df)) (g2 (map Close df))
                      (g3 (map Close df)) (g4 (map Close df))
                      (g5 (map Close df)) (g6 (map Close df))
                      (g7 (map Close df)) (g8 (map Close df))
                      (g9 (map Close df)) 0 df).
  { intros df. unfold frame, calculate_technical_indicators.
    destruct df as [ | k rest]; [ reflexivity | ].
    unfold calculate_try. now rewrite E1, E2, E3, E4, E5, E6, E7, E8, E9. }
  rewrite !F, !annotate_nth_error, nth_error_app1 by exact Hi.
  destruct (nth_error s i) as [k | ]; [ cbn | reflexivity ].
  assert (Hc : i < length (map Close s)) by now rewrite length_map.
  rewrite map_app.
  now rewrite (causal_at_index g1), (causal_at_index g2),
    (causal_at_index g3), (causal_at_index g4), (causal_at_index g5),
    (causal_at_index g6), (causal_at_index g7), (causal_at_index g8),
    (causal_at_index g9) by assumption.
Qed.

Lemma engine_causal_witness :
  nth_error (frame spec_ta (sample_series 30 ++ [sample_bar 250%float])) 29
  = nth_error (frame spec_ta (sample_series 30)) 29.
Proof.
  apply (engine_causal spec_ta (sample_series 30) (sample_bar 250%float) 29).
  - exact spec_ta_causal.
  - vm_compute. lia.
Defined.

(** ** log_to_csv *)

Lemma data_row_length (w : world) (timestamp : pytime) (pair : String.string)
    (price rsi macd_line macd_signal ema50 ema200 : cell)
    (signal_type : String.string) :
  length (data_row w timestamp pair price rsi macd_line macd_signal ema50
                   ema200 signal_type) = 9.
Proof. reflexivity. Qed.

(** What one call does to the file: nothing, one more line, or a new file
    of the header and one line. *)
Lemma log_to_csv_cases (w : world) (timestamp : pytime) (pair : String.string)
    (price rsi macd_line macd_signal ema50 ema200 : cell)
    (signal_type : String.string) (f : file) :
  let row := data_row w timestamp pair price rsi macd_line macd_signal ema50
                      ema200 signal_type in
  let f' := log_to_csv w timestamp pair price rsi macd_line macd_signal ema50
                       ema200 signal_type f in
  (writable w = false /\ f' = f)
  \/ (writable w = true /\ exists lines,
        f = Some lines /\ f' = Some (lines ++ [row]))
  \/ (writable w = true /\ f = None /\ f' = Some [fieldnames; row]).
Proof.
  cbn zeta. unfold log_to_csv. destruct (writable w).
  - destruct f as [lines | ].
    + right. left. split; [ reflexivity | ]. now exists lines.
    + right. right. now repeat split.
  - left. now split.
Qed.

Lemma well_formed_snoc (lines : list line) (row : line) :
  well_formed (Some lines) -> length row = 9 ->
  well_formed (Some (lines ++ [row])).
Proof.
  intros (rows & -> & F) L. exists (rows ++ [row]). split; [ reflexivity | ].
  apply Forall_app. split; [ exact F | now constructor ].
Qed.

(** One call keeps a well-formed log well formed and only appends. *)
Lemma log_to_csv_step (w : world) (timestamp : pytime)
    (pair : String.string)
    (price rsi macd_line macd_signal ema50 ema200 : cell)
    (signal_type : String.string) (f : file) :
  well_formed f ->
  let f' := log_to_csv w timestamp pair price rsi macd_line macd_signal ema50
                       ema200 signal_type f in
  well_formed f'
  /\ exists added,
      lines_of f' = lines_of f ++ added
      /\ length added <= 2
      /\ (f <> None -> length added <= 1).
Proof.
  intros W. cbn zeta.
  destruct (log_to_csv_cases w timestamp pair price rsi macd_line macd_signal
              ema50 ema200 signal_type f)
    as [(_ & E) | [(_ & lines & -> & E) | (_ & -> & E)]];
    cbn zeta in E; rewrite E.
  - split; [ exact W | ]. exists []. rewrite app_nil_r. cbn.
    repeat split; lia.
  - split; [ now apply well_formed_snoc | ].
    eexists. cbn [lines_of]. repeat split; cbn; lia.
  - split.
    + eexists. split; [ reflexivity | ]. now repeat constructor.
    + eexists. cbn [lines_of app]. repeat split; [ cbn; lia | congruence ].
Qed.

(** X8. [log_to_csv] keeps the log well formed (the header first, nine
    fields on every later line) and only appends: the lines that were
    there stay, in place, and at most a header and one row follow.  When
    the file cannot be opened nothing changes; when it can, the row of the
    call is appended to an existing file, and a missing file becomes the
    header and that row. *)
Theorem log_to_csv_appends (w : world) (timestamp : pytime)
    (pair : String.string)
    (price rsi macd_line macd_signal ema50 ema200 : cell)
    (signal_type : String.string) (f : file) :
  well_formed f ->
  let f' := log_to_csv w timestamp pair price rsi macd_line macd_signal ema50
                       ema200 signal_type f in
  let row := data_row w timestamp pair price rsi macd_line macd_signal ema50
                      ema200 signal_type in
  (well_formed f'
   /\ exists added,
       lines_of f' = lines_of f ++ added
       /\ length added <= 2
       /\ (f <> None -> length added <= 1))
  /\ (writable w = false -> f' = f)
  /\ (writable w = true ->
      forall lines, f = Some lines -> f' = Some (lines ++ [row]))
  /\ (writable w = true -> f = None -> f' = Some [fieldnames; row]).
Proof.
  intros W. cbn zeta. split; [ now apply log_to_csv_step | ].
  unfold log_to_csv. repeat split.
  - now intros ->.
  - now intros -> lines ->.
  - now intros -> ->.
Qed.

Lemma log_to_csv_appends_witness :
  well_formed
    (log_to_csv sample_world (Datetime 0) "BTC/USDT"%string (Some 1%float)
                None None None None None "BUY"%string (Some [fieldnames])).
Proof.
  apply (log_to_csv_appends sample_world (Datetime 0) "BTC/USDT"%string
           (Some 1%float) None None None None None "BUY"%string
           (Some [fieldnames])).
  exists []. split; [ reflexivity | constructor ].
Defined.

(** ** run_analysis *)

(** The fetch gives a frame exactly for an answer that is not empty and
    whose timestamps all convert. *)
Lemma fetch_some_inv (w : world) (ex : exchange)
    (pair timeframe : String.string) (limit : nat) (df : list candle) :
  fetch_ohlcv_data w ex pair timeframe limit = Some df <->
  ex pair timeframe limit = Ok df
  /\ df <> []
  /\ forallb (fun c => datetime_ok w (Timestamp c)) df = true.
Proof.
  unfold fetch_ohlcv_data.
  destruct (ex pair timeframe limit) as [[ | c rest] | ]; split;
    try discriminate; try (intros (H & N & _); congruence).
  - destruct (forallb _ (c :: rest)) eqn:T; [ | discriminate ].
    intros H. injection H as <-. now repeat split.
  - intros (H & _ & T). injection H as <-. now rewrite T.
Qed.

Lemma unpack7_short (rows : list row) :
  length rows < 2 -> unpack7 (check_signals (Some rows)) = Raise.
Proof.
  intros H. unfold check_signals. apply Nat.ltb_lt in H. now rewrite H.
Qed.

Lemma unpack7_window (rows : list row) (latest : row) :
  2 <= length rows ->
  iloc_last rows = Some latest ->
  unpack7 (check_signals (Some rows)) =
  Ok (fst (check_signals (Some rows)), Some (Close (bar latest)),
      RSI latest, MACD_line latest, MACD_signal latest, EMA50 latest,
      EMA200 latest).
Proof.
  intros L Hl. destruct (window_of_rows rows L) as (l & p & Hl' & Hp).
  assert (l = latest) by congruence. subst l.
  now rewrite (check_signals_window rows latest p Hl Hp).
Qed.

Lemma iloc_last_map {A B : Type} (h : A -> B) (xs : list A) :
  iloc_last (map h xs) = option_map h (iloc_last xs).
Proof.
  unfold iloc_last. rewrite <- map_rev. now destruct (rev xs).
Qed.

Lemma iloc_last_some {A : Type} (xs : list A) :
  xs <> [] -> exists x, iloc_last xs = Some x.
Proof.
  intros N. unfold iloc_last. destruct (rev xs) as [ | x t] eqn:E.
  - apply (f_equal (@rev A)) in E. rewrite rev_involutive in E.
    now contradiction N.
  - now exists x.
Qed.

(** The run when the fetch gave no frame. *)
Lemma run_analysis_no_data (w : world) (ta : TaLib) (ex : exchange)
    (pair timeframe : String.string) (f : file) :
  fetch_ohlcv_data w ex pair timeframe DATA_LIMIT = None ->
  run_analysis w ta ex pair timeframe f =
  (Returned,
   log_to_csv w (Datetime (now w)) pair None None None None None None
              "DATA_FETCH_ERROR"%string f).
Proof. unfold run_analysis. now intros ->. Qed.

(** The run when the engine gave no frame. *)
Lemma run_analysis_no_frame (w : world) (ta : TaLib) (ex : exchange)
    (pair timeframe : String.string) (f : file) (df : list candle) :
  fetch_ohlcv_data w ex pair timeframe DATA_LIMIT = Some df ->
  calculate_technical_indicators ta (Some df) = None ->
  run_analysis w ta ex pair timeframe f =
  (Returned,
   log_to_csv w (Datetime (now w)) pair None None None None None None
              "INDICATOR_CALC_ERROR"%string f).
Proof.
  intros F E. unfold run_analysis. rewrite F.
  destruct df as [ | c rest];
    [ apply fetch_some_inv in F; now destruct F | ].
  now rewrite E.
Qed.

(** The run on a frame of one row. *)
Lemma run_analysis_one_row (w : world) (ta : TaLib) (ex : exchange)
    (pair timeframe : String.string) (f : file) (df : list candle)
    (rows : list row) :
  fetch_ohlcv_data w ex pair timeframe DATA_LIMIT = Some df ->
  calculate_technical_indicators ta (Some df) = Some rows ->
  length rows < 2 ->
  run_analysis w ta ex pair timeframe f = (ValueError, f).
Proof.
  intros F E L. unfold run_analysis. rewrite F.
  destruct (engine_some_inv ta df rows E) as (N & T).
  pose proof (calculate_try_bar ta df rows T) as B.
  destruct df as [ | c rest]; [ now contradiction N | ].
  rewrite E. destruct rows as [ | r rs]; [ discriminate | ].
  now rewrite unpack7_short.
Qed.

(** The run on a frame of two rows or more. *)
Lemma run_analysis_window (w : world) (ta : TaLib) (ex : exchange)
    (pair timeframe : String.string) (f : file) (df : list candle)
    (rows : list row) (latest : row) :
  fetch_ohlcv_data w ex pair timeframe DATA_LIMIT = Some df ->
  calculate_technical_indicators ta (Some df) = Some rows ->
  2 <= length rows ->
  iloc_last rows = Some latest ->
  run_analysis w ta ex pair timeframe f =
  match fst (check_signals (Some rows)) with
  | NO_SIGNAL => (Returned, f)
  | s =>
      (Returned,
       log_to_csv w (Datetime (Timestamp (bar latest))) pair
                  (Some (Close (bar latest))) (RSI latest) (MACD_line latest)
                  (MACD_signal latest) (EMA50 latest) (EMA200 latest)
                  (signal_name s) f)
  end.
Proof.
  intros F E L Hl. unfold run_analysis. rewrite F.
  destruct (engine_some_inv ta df rows E) as (N & _).
  destruct df as [ | c rest]; [ now contradiction N | ].
  rewrite E. destruct rows as [ | r rs]; [ cbn in L; lia | ].
  rewrite (unpack7_window (r :: rs) latest L Hl), Hl.
  now destruct (fst (check_signals (Some (r :: rs)))).
Qed.

(** A run raises exactly on a one-candle answer, and then writes nothing. *)
Lemma run_analysis_raises (w : world) (ta : TaLib) (ex : exchange)
    (pair timeframe : String.string) (f : file) :
  (fst (run_analysis w ta ex pair timeframe f) = ValueError <->
   one_candle_answer w ta ex (pair, timeframe))
  /\ (fst (run_analysis w ta ex pair timeframe f) = ValueError ->
      snd (run_analysis w ta ex pair timeframe f) = f).
Proof.
  unfold one_candle_answer. cbn [fst snd].
  destruct (fetch_ohlcv_data w ex pair timeframe DATA_LIMIT) as [df | ] eqn:F.
  - apply fetch_some_inv in F as F'. destruct F' as (Ex & N & D).
    destruct (calculate_technical_indicators ta (Some df)) as [rows | ] eqn:E.
    + destruct (engine_some_inv ta df rows E) as (_ & T).
      pose proof (calculate_try_bar ta df rows T) as B.
      assert (L : length rows = length df) by now rewrite <- B, length_map.
      destruct (Nat.lt_ge_cases (length rows) 2) as [Lt | Ge].
      * rewrite (run_analysis_one_row w ta ex pair timeframe f df rows F E Lt).
        cbn. split; [ | reflexivity ]. split; [ intros _ | reflexivity ].
        destruct df as [ | c [ | c' rest]]; cbn in *; try lia;
          [ now contradiction N | ].
        exists c, rows. repeat split; try assumption.
        now rewrite andb_true_r in D.
      * destruct (window_of_rows rows Ge) as (l & p & Hl & _).
        rewrite (run_analysis_window w ta ex pair timeframe f df rows l
                   F E Ge Hl).
        split; [ split | ].
        -- destruct (fst (check_signals (Some rows))); discriminate.
        -- intros (c & rows' & Ex' & _ & T'). exfalso.
           rewrite Ex in Ex'. injection Ex' as ->.
           rewrite T in T'. injection T' as <-. cbn in L. lia.
        -- destruct (fst (check_signals (Some rows))); discriminate.
    + rewrite (run_analysis_no_frame w ta ex pair timeframe f df F E).
      cbn. split; [ split | ]; try discriminate.
      intros (c & rows' & Ex' & _ & T'). exfalso.
      rewrite Ex in Ex'. injection Ex' as ->.
      unfold calculate_technical_indicators in E. now rewrite T' in E.
  - rewrite (run_analysis_no_data w ta ex pair timeframe f F).
    cbn. split; [ split | ]; try discriminate.
    intros (c & rows' & Ex' & D' & _). exfalso.
    unfold fetch_ohlcv_data in F. rewrite Ex' in F. cbn in F.
    rewrite D' in F. discriminate.
Qed.

(** X9. [run_analysis] raises [ValueError] exactly when the exchange
    answers a single candle, its timestamp converts, and no library call
    raises on it; the log is then left as it was. *)
Theorem run_analysis_raises_iff (w : world) (ta : TaLib) (ex : exchange)
    (pair timeframe : String.string) (f : file) :
  (fst (run_analysis w ta ex pair timeframe f) = ValueError <->
   exists c rows,
     ex pair timeframe DATA_LIMIT = Ok [c]
     /\ datetime_ok w (Timestamp c) = true
     /\ calculate_try ta [c] = Ok rows)
  /\ (fst (run_analysis w ta ex pair timeframe f) = ValueError ->
      snd (run_analysis w ta ex pair timeframe f) = f).
Proof. apply (run_analysis_raises w ta ex pair timeframe f). Qed.

(** What a run does to the log: nothing, or one call of [log_to_csv] with
    one of four signal types. *)
Lemma run_analysis_file (w : world) (ta : TaLib) (ex : exchange)
    (pair timeframe : String.string) (f : file) :
  snd (run_analysis w ta ex pair timeframe f) = f
  \/ exists timestamp price rsi macd_line macd_signal ema50 ema200 name,
      snd (run_analysis w ta ex pair timeframe f) =
      log_to_csv w timestamp pair price rsi macd_line macd_signal ema50
                 ema200 name f
      /\ (name = "DATA_FETCH_ERROR"%string
          \/ name = "INDICATOR_CALC_ERROR"%string
          \/ name = "BUY"%string \/ name = "SELL"%string).
Proof.
  destruct (fetch_ohlcv_data w ex pair timeframe DATA_LIMIT) as [df | ] eqn:F.
  - destruct (calculate_technical_indicators ta (Some df)) as [rows | ] eqn:E.
    + destruct (Nat.lt_ge_cases (length rows) 2) as [Lt | Ge].
      * left.
        now rewrite (run_analysis_one_row w ta ex pair timeframe f df rows
                       F E Lt).
      * destruct (window_of_rows rows Ge) as (l & p & Hl & _).
        rewrite (run_analysis_window w ta ex pair timeframe f df rows l
                   F E Ge Hl).
        destruct (fst (check_signals (Some rows)));
          [ right | right | now left ];
          do 8 eexists; (split; [ reflexivity | ]); cbn; tauto.
    + right.
      rewrite (run_analysis_no_frame w ta ex pair timeframe f df F E).
      do 8 eexists. split; [ reflexivity | tauto ].
  - right. rewrite (run_analysis_no_data w ta ex pair timeframe f F).
    do 8 eexists. split; [ reflexivity | tauto ].
Qed.

(** X10. A run calls [log_to_csv] at most once, and only with the signal
    type DATA_FETCH_ERROR, INDICATOR_CALC_ERROR, BUY or SELL: a NO_SIGNAL
    is never written, and the UNKNOWN_STATE branch is never taken. *)
Theorem run_analysis_log_kinds (w : world) (ta : TaLib) (ex : exchange)
    (pair timeframe : String.string) (f : file) :
  snd (run_analysis w ta ex pair timeframe f) = f
  \/ exists timestamp price rsi macd_line macd_signal ema50 ema200 name,
      snd (run_analysis w ta ex pair timeframe f) =
      log_to_csv w timestamp pair price rsi macd_line macd_signal ema50
                 ema200 name f
      /\ (name = "DATA_FETCH_ERROR"%string
          \/ name = "INDICATOR_CALC_ERROR"%string
          \/ name = "BUY"%string \/ name = "SELL"%string).
Proof. apply run_analysis_file. Qed.

(** X11. When the exchange answers two candles or more whose timestamps
    all convert, and the engine returns a frame, the run returns; on a BUY
    or a SELL it logs one row with the time and the close of the last
    candle the exchange answered, the five indicator values of the last row
    and the name of the signal; on NO_SIGNAL it leaves the log as it was. *)
Theorem run_analysis_signal_logged (w : world) (ta : TaLib) (ex : exchange)
    (pair timeframe : String.string) (f : file) (df : list candle)
    (rows : list row) (c : candle) (latest : row) :
  ex pair timeframe DATA_LIMIT = Ok df ->
  forallb (fun k => datetime_ok w (Timestamp k)) df = true ->
  2 <= length df ->
  calculate_technical_indicators ta (Some df) = Some rows ->
  iloc_last df = Some c ->
  iloc_last rows = Some latest ->
  run_analysis w ta ex pair timeframe f =
  match fst (check_signals (Some rows)) with
  | NO_SIGNAL => (Returned, f)
  | s =>
      (Returned,
       log_to_csv w (Datetime (Timestamp c)) pair (Some (Close c))
                  (RSI latest) (MACD_line latest) (MACD_signal latest)
                  (EMA50 latest) (EMA200 latest) (signal_name s) f)
  end.
Proof.
  intros Ex D L E Hc Hl.
  assert (F : fetch_ohlcv_data w ex pair timeframe DATA_LIMIT = Some df).
  { apply fetch_some_inv. repeat split; [ exact Ex | | exact D ].
    intros ->. cbn in L. lia. }
  destruct (engine_some_inv ta df rows E) as (_ & T).
  pose proof (calculate_try_bar ta df rows T) as B.
  assert (Lr : 2 <= length rows) by now rewrite <- B, length_map in L.
  assert (Hb : bar latest = c).
  { rewrite <- B, iloc_last_map, Hl in Hc. cbn in Hc. congruence. }
  rewrite (run_analysis_window w ta ex pair timeframe f df rows latest
             F E Lr Hl).
  now rewrite Hb.
Qed.

Lemma run_analysis_signal_logged_witness :
  run_analysis sample_world sample_ta (sample_exchange 2)
               "BTC/USDT"%string "1h"%string (Some [fieldnames]) =
  (Returned,
   Some [fieldnames;
         ["2024-01-01 00:00:00"; "BTC/USDT"; "0.0"; "0.0"; "0.0"; "0.0";
          "0.0"; "0.0"; "BUY"]%string]).
Proof.
  apply (run_analysis_signal_logged sample_world sample_ta (sample_exchange 2)
           "BTC/USDT"%string "1h"%string (Some [fieldnames])
           (sample_series 2) (frame sample_ta (sample_series 2))
           (nth 1 (sample_series 2) (sample_bar 0%float))
           (nth 1 (frame sample_ta (sample_series 2)) sample_latest));
    [ reflexivity | reflexivity | vm_compute; lia | reflexivity .. ].
Defined.

(** X12. A failed fetch (the exchange raises, answers no row, or answers a
    timestamp that does not convert) makes the run log one
    DATA_FETCH_ERROR row and return; when the fetch gives a frame but a
    library call raises, the run logs one INDICATOR_CALC_ERROR row and
    returns.  Both rows are stamped with the clock and carry no value. *)
Theorem run_analysis_errors (w : world) (ta : TaLib) (ex : exchange)
    (pair timeframe : String.string) (f : file) :
  (ex pair timeframe DATA_LIMIT = Raise
   \/ ex pair timeframe DATA_LIMIT = Ok []
   \/ (exists df,
         ex pair timeframe DATA_LIMIT = Ok df
         /\ forallb (fun k => datetime_ok w (Timestamp k)) df = false) ->
   run_analysis w ta ex pair timeframe f =
   (Returned,
    log_to_csv w (Datetime (now w)) pair None None None None None None
               "DATA_FETCH_ERROR"%string f))
  /\ (forall c rest,
         ex pair timeframe DATA_LIMIT = Ok (c :: rest) ->
         forallb (fun k => datetime_ok w (Timestamp k)) (c :: rest) = true ->
         calculate_try ta (c :: rest) = Raise ->
         run_analysis w ta ex pair timeframe f =
         (Returned,
          log_to_csv w (Datetime (now w)) pair None None None None None None
                     "INDICATOR_CALC_ERROR"%string f)).
Proof.
  split.
  - intros H. apply run_analysis_no_data. unfold fetch_ohlcv_data.
    destruct H as [-> | [-> | (df & -> & D)]]; try reflexivity.
    destruct df as [ | k rest]; [ reflexivity | ]. now rewrite D.
  - intros c rest Ex D T.
    apply (run_analysis_no_frame w ta ex pair timeframe f (c :: rest)).
    + apply fetch_some_inv. repeat split; [ exact Ex | discriminate | exact D ].
    + cbn. now rewrite T.
Qed.

(** A run keeps a well-formed log well formed and only appends. *)
Lemma run_analysis_step (w : world) (ta : TaLib) (ex : exchange)
    (pair timeframe : String.string) (f : file) :
  well_formed f ->
  well_formed (snd (run_analysis w ta ex pair timeframe f))
  /\ exists added,
      lines_of (snd (run_analysis w ta ex pair timeframe f))
      = lines_of f ++ added
      /\ length added <= 2
      /\ (f <> None -> length added <= 1).
Proof.
  intros W.
  destruct (run_analysis_file w ta ex pair timeframe f)
    as [-> | (ts & p & r & ml & ms & e50 & e200 & name & -> & _)].
  - split; [ exact W | ]. exists []. rewrite app_nil_r. cbn.
    repeat split; lia.
  - now apply log_to_csv_step.
Qed.

(** X13. A run of [run_analysis] keeps the log well formed and never
    touches the lines already in it: it adds at most one row, after a
    header when the file did not exist. *)
Theorem run_analysis_appends (w : world) (ta : TaLib) (ex : exchange)
    (pair timeframe : String.string) (f : file) :
  well_formed f ->
  well_formed (snd (run_analysis w ta ex pair timeframe f))
  /\ exists added,
      lines_of (snd (run_analysis w ta ex pair timeframe f))
      = lines_of f ++ added
      /\ length added <= 2
      /\ (f <> None -> length added <= 1).
Proof. apply run_analysis_step. Qed.

Lemma run_analysis_appends_witness :
  well_formed
    (snd (run_analysis sample_world sample_ta (sample_exchange 2)
                       "BTC/USDT"%string "1h"%string None)).
Proof.
  apply (run_analysis_appends sample_world sample_ta (sample_exchange 2)
           "BTC/USDT"%string "1h"%string None).
  exact I.
Defined.

(** ** The start of main *)

Lemma init_log_well_formed (w : world) (f : file) :
  well_formed f \/ (f = Some [] /\ writable w = true) ->
  well_formed (init_log w f).
Proof.
  intros [W | (-> & Hw)].
  - destruct f as [[ | l lines] | ]; cbn.
    + destruct W as (rows & E & _). discriminate.
    + exact W.
    + destruct (writable w); [ | exact I ].
      exists []. split; [ reflexivity | constructor ].
  - cbn. rewrite Hw. exists []. split; [ reflexivity | constructor ].
Qed.

Lemma initial_analysis_step (w : world) (ta : TaLib) (ex : exchange)
    (pairs : list (String.string * String.string)) (f : file) :
  well_formed f -> f <> None ->
  well_formed (snd (initial_analysis w ta ex pairs f))
  /\ exists added,
      lines_of (snd (initial_analysis w ta ex pairs f)) = lines_of f ++ added
      /\ length added <= length pairs.
Proof.
  revert f. induction pairs as [ | [symbol timeframe] rest IH]; intros f W N.
  - cbn. split; [ exact W | ]. exists []. now rewrite app_nil_r.
  - cbn [initial_analysis].
    destruct (run_analysis_step w ta ex symbol timeframe f W)
      as (W' & added & E & _ & L).
    specialize (L N).
    destruct (run_analysis w ta ex symbol timeframe f) as [[ | ] f'] eqn:R;
      cbn [snd] in *.
    + assert (N' : f' <> None).
      { destruct f as [lines | ]; [ | now contradiction N ].
        destruct f'; [ discriminate | ]. cbn in E.
        destruct lines; [ | discriminate ].
        destruct W as (rows & Hrows & _). discriminate. }
      destruct (IH f' W' N') as (W'' & added' & E' & L').
      split; [ exact W'' | ]. exists (added ++ added').
      rewrite E', E, <- app_assoc. split; [ reflexivity | ].
      rewrite length_app. cbn [length]. lia.
    + split; [ exact W' | ]. exists added. split; [ exact E | ].
      cbn [length]. lia.
Qed.

(** X14. The start of [main] leaves a well-formed log when the log was
    missing, well formed, or empty and writable; once the file exists, the
    first round of runs keeps its lines and adds at most one row per
    configured pair. *)
Theorem main_start_log (w : world) (ta : TaLib) (ex : exchange) (f : file) :
  well_formed f \/ (f = Some [] /\ writable w = true) ->
  well_formed (snd (main_start w ta ex f))
  /\ (init_log w f <> None ->
      exists added,
        lines_of (snd (main_start w ta ex f))
        = lines_of (init_log w f) ++ added
        /\ length added <= 3).
Proof.
  intros H. pose proof (init_log_well_formed w f H) as W.
  unfold main_start. destruct (init_log w f) as [lines | ] eqn:I.
  - destruct (initial_analysis_step w ta ex TRADING_PAIRS_TIMEFRAMES
                (Some lines) W) as (W' & added & E & L); [ discriminate | ].
    split; [ exact W' | ]. intros _. exists added. split; assumption.
  - split; [ | intros N; now contradiction N ].
    clear H I. generalize TRADING_PAIRS_TIMEFRAMES as pairs.
    assert (G : forall pairs g,
               well_formed g ->
               well_formed (snd (initial_analysis w ta ex pairs g))).
    { induction pairs as [ | [symbol timeframe] rest IH]; intros g Wg;
        [ exact Wg | ].
      cbn [initial_analysis].
      destruct (run_analysis_step w ta ex symbol timeframe g Wg) as (W' & _).
      destruct (run_analysis w ta ex symbol timeframe g) as [[ | ] g'];
        cbn [snd] in *; [ now apply IH | exact W' ]. }
    intros pairs. now apply G.
Qed.

Lemma main_start_log_witness :
  well_formed (snd (main_start sample_world sample_ta (sample_exchange 2)
                               (Some []))).
Proof.
  apply (main_start_log sample_world sample_ta (sample_exchange 2) (Some [])).
  right. split; reflexivity.
Defined.

(** X15. The first round of runs raises exactly when, for some configured
    pair, the exchange answers a single candle whose timestamp converts and
    on which no library call raises; the state of the log plays no part. *)
Theorem initial_analysis_raises_iff (w : world) (ta : TaLib) (ex : exchange)
    (pairs : list (String.string * String.string)) (f : file) :
  fst (initial_analysis w ta ex pairs f) = ValueError <->
  Exists (one_candle_answer w ta ex) pairs.
Proof.
  revert f. induction pairs as [ | [symbol timeframe] rest IH]; intros f.
  - cbn. split; [ discriminate | intros H; inversion H ].
  - cbn [initial_analysis].
    destruct (run_analysis_raises w ta ex symbol timeframe f) as (R & _).
    destruct (run_analysis w ta ex symbol timeframe f) as [[ | ] f'] eqn:E;
      cbn [fst] in *.
    + rewrite IH. split; [ now constructor 2 | ].
      intros H. inversion H as [? ? H1 | ? ? H1]; subst; [ | exact H1 ].
      apply R in H1. discriminate.
    + split; [ intros _ | reflexivity ].
      constructor 1. now apply R.
Qed.
